(** * The Cannon: label inference ([TheCannon/infer_labels.py])

    A shallow embedding of [_get_lvec], [_func] and [_infer_labels], and the
    properties of the inference step that the specification states.

    Conventions of the embedding.
    - A Python float is a real number ([R]); rounding, infinities and NaN
      are outside the model.
    - A 1-D numpy array is a [list R]; a 2-D array is the list of its rows.
      An array without rows is the empty list, which has lost its number
      of columns: the properties below are stated for at least one pixel,
      and take the number of labels as a parameter of the loop.
    - numpy is the numpy of version 1.12 and later: a boolean mask of the
      wrong length raises IndexError, and a float where an array dimension
      is expected raises TypeError.
    - A Python exception is a value of [exn]; code that may raise returns a
      [result].
    - The dataset object, the lines printed and the calls of the dataset's
      setter live in a [world] that is threaded through the driver.
    - [scipy.optimize.curve_fit] is not part of the repository: the driver
      is parameterised by it. *)

From Stdlib Require Import String Reals Lra Lia Arith ZArith Bool List.
Import ListNotations.
Open Scope R_scope.

Set Implicit Arguments.

(** ** Python exceptions and results *)

Module Py.

(** The exception classes that the array operations of the driver and the
    optimizer can raise.  [NotImplementedError] and [RecursionError] are
    the built-in subclasses of [RuntimeError]. *)
Inductive exn : Type :=
| RuntimeError
| NotImplementedError
| RecursionError
| ValueError
| TypeError
| IndexError
| ZeroDivisionError
| MemoryError.

(** [isinstance(e, RuntimeError)]: what an [except RuntimeError] clause
    catches. *)
Definition is_RuntimeError (e : exn) : bool :=
  match e with
  | RuntimeError | NotImplementedError | RecursionError => true
  | _ => false
  end.

Inductive result (A : Type) : Type :=
| Returned (a : A)
| Raised (e : exn).

Arguments Returned {A} a.
Arguments Raised {A} e.

Definition rbind {A B} (r : result A) (k : A -> result B) : result B :=
  match r with
  | Returned a => k a
  | Raised e => Raised e
  end.

(** Evaluate [f] on every element, left to right, stopping at the first
    exception. *)
Fixpoint rmap {A B} (f : A -> result B) (l : list A) : result (list B) :=
  match l with
  | [] => Returned []
  | x :: t =>
      rbind (f x) (fun y => rbind (rmap f t) (fun ys => Returned (y :: ys)))
  end.

End Py.
Import Py.

Declare Scope result_scope.
Delimit Scope result_scope with result.
Notation "x <- r ;; k" := (rbind r (fun x => k))
  (at level 61, r at next level, right associativity) : result_scope.
Notation "' p <- r ;; k" := (rbind r (fun x => match x with p => k end))
  (at level 61, p pattern, r at next level, right associativity) : result_scope.

(** ** The numpy operations the driver uses *)

Module Np.

Definition vector := list R.
Definition matrix := list (list R).

(** [x == 0.0] on floats. *)
Definition Reqb (x y : R) : bool :=
  if Req_dec_T x y then true else false.

(** [np.zeros(n)], [np.ones(n)], [np.zeros((m, n))]. *)
Definition zeros (n : nat) : vector := repeat 0 n.
Definition ones (n : nat) : vector := repeat 1 n.
Definition zeros2 (m n : nat) : matrix := repeat (zeros n) m.

(** A dimension as Python hands it to [np.zeros]: an int or a float. *)
Inductive dim : Type :=
| IntDim (n : Z)
| FloatDim (x : R).

(** [np.zeros(shape)] for a shape of any number of dimensions, as far as
    raising goes (the driver never reads the array it makes in this way).
    The dimensions are first converted to integers, TypeError on a float
    ("'float' object cannot be interpreted as an integer"); then a
    negative dimension raises ValueError. *)
Definition zeros_shape (shape : list dim) : result unit :=
  rbind (rmap (fun d => match d with
                        | IntDim n => Returned n
                        | FloatDim _ => Raised TypeError
                        end) shape)
        (fun ns => if forallb (fun n => (0 <=? n)%Z) ns
                   then Returned tt
                   else Raised ValueError).

(** [a.shape[0]] and [a.shape[1]] of a 2-D array.  An array with no rows
    is the empty list, whose column count reads 0. *)
Definition shape0 (a : matrix) : nat := length a.
Definition shape1 (a : matrix) : nat :=
  match a with
  | [] => 0%nat
  | r :: _ => length r
  end.

(** An arithmetic operator on an array and a scalar. *)
Definition scalar_op (f : R -> R -> R) (a : vector) (c : R) : vector :=
  map (fun x => f x c) a.

(** An arithmetic operator on two 1-D arrays, with numpy's broadcasting:
    equal lengths combine element by element, an array of length 1 is
    stretched to the other's length, anything else raises ValueError
    ("operands could not be broadcast together"). *)
Fixpoint zip_with (f : R -> R -> R) (a b : vector) : vector :=
  match a, b with
  | x :: a', y :: b' => f x y :: zip_with f a' b'
  | _, _ => []
  end.

Definition broadcast (f : R -> R -> R) (a b : vector) : result vector :=
  if (length a =? length b)%nat then Returned (zip_with f a b)
  else match a, b with
       | [x], _ => Returned (map (fun y => f x y) b)
       | _, [y] => Returned (map (fun x => f x y) a)
       | _, _ => Raised ValueError
       end.

(** [np.outer(a, b)]. *)
Definition outer (a b : vector) : matrix :=
  map (fun x => map (fun y => x * y) b) a.

(** [np.triu_indices(n)]: the positions [(i, j)], [i <= j < n], of the
    upper triangle, row by row. *)
Definition triu_indices (n : nat) : list (nat * nat) :=
  flat_map (fun i => map (fun j => (i, j)) (seq i (n - i))) (seq 0 n).

(** [m[idx]] for a pair of index arrays [idx] as [triu_indices] returns
    them (the indices used here are always in range). *)
Definition take2 (m : matrix) (idx : list (nat * nat)) : vector :=
  map (fun ij => nth (snd ij) (nth (fst ij) m []) 0) idx.

(** [np.dot(v, w)] of two 1-D arrays of one length. *)
Fixpoint dot1 (v w : vector) : R :=
  match v, w with
  | x :: v', y :: w' => x * y + dot1 v' w'
  | _, _ => 0
  end.

(** [np.dot(m, v)] of a 2-D array that has rows and a 1-D array: one dot
    product per row; ValueError ("shapes not aligned") unless the rows
    have the length of [v].  (On no rows at all nothing is left to compare
    with [v], and the result is the empty array.) *)
Definition dot (m : matrix) (v : vector) : result vector :=
  rmap (fun row => if (length row =? length v)%nat
                   then Returned (dot1 row v)
                   else Raised ValueError) m.

(** [m[:, 0]]: IndexError where there is no column 0. *)
Definition column0 (m : matrix) : result vector :=
  rmap (fun row => match row with
                   | [] => Raised IndexError
                   | x :: _ => Returned x
                   end) m.

(** [np.delete(m, 0, axis=1)]. *)
Definition delete_column0 (m : matrix) : result matrix :=
  rmap (fun row => match row with
                   | [] => Raised IndexError
                   | _ :: t => Returned t
                   end) m.

(** [~mask]. *)
Definition invert (mask : list bool) : list bool := map negb mask.

(** [a[mask]] for a boolean [mask]: the entries where the mask is True;
    IndexError unless the mask has the length of [a]. *)
Fixpoint select (a : vector) (mask : list bool) : vector :=
  match a, mask with
  | x :: a', b :: mask' =>
      if b then x :: select a' mask' else select a' mask'
  | _, _ => []
  end.

Definition getmask (a : vector) (mask : list bool) : result vector :=
  if (length a =? length mask)%nat then Returned (select a mask)
  else Raised IndexError.

(** [a[mask] = vals]: the entries of [a] where the mask is True are
    replaced, in order, by the entries of [vals].  IndexError unless the
    mask has the length of [a]; ValueError unless [vals] has one entry
    per True of the mask, or a single entry (which is then used for all
    of them). *)
Fixpoint scatter_into (a : vector) (mask : list bool) (vals : vector)
  : vector :=
  match a, mask with
  | x :: a', b :: mask' =>
      if b then
        match vals with
        | v :: vals' => v :: scatter_into a' mask' vals'
        | [] => x :: scatter_into a' mask' []
        end
      else x :: scatter_into a' mask' vals
  | _, _ => a
  end.

Definition count_true (mask : list bool) : nat :=
  length (filter (fun b => b) mask).

Definition setmask (a : vector) (mask : list bool) (vals : vector)
  : result vector :=
  if (length a =? length mask)%nat then
    if (length vals =? count_true mask)%nat
    then Returned (scatter_into a mask vals)
    else match vals with
         | [v] => Returned (scatter_into a mask (repeat v (count_true mask)))
         | _ => Raised ValueError
         end
  else Raised IndexError.

(** [m.diagonal()] of a 2-D array. *)
Definition diagonal (m : matrix) : vector :=
  map (fun i => nth i (nth i m []) 0)
      (seq 0 (Nat.min (shape0 m) (shape1 m))).

(** [a[jj] = x] for an index within the array (the driver only writes
    at the indices of its loop). *)
Fixpoint update {A} (jj : nat) (x : A) (l : list A) : list A :=
  match l, jj with
  | [], _ => []
  | _ :: t, O => x :: t
  | y :: t, S k => y :: update k x t
  end.

(** [a[jj, :] = v] on an array of [n] columns: [v] is broadcast to the
    row (its length is [n], or 1), otherwise ValueError. *)
Definition broadcast_to (n : nat) (v : vector) : result vector :=
  if (length v =? n)%nat then Returned v
  else match v with
       | [x] => Returned (repeat x n)
       | _ => Raised ValueError
       end.

Definition set_row (a : matrix) (n jj : nat) (v : vector) : result matrix :=
  rbind (broadcast_to n v) (fun r => Returned (update jj r a)).

(** Python's built-in [sum] over an array: it starts from 0 and adds the
    entries from the left. *)
Definition sum (a : vector) : R := fold_left Rplus a 0.

End Np.
Import Np.

(** ** [_get_lvec] and [_func] *)

(** [_get_lvec(labels)]: the labels followed by the upper triangle of their
    outer product ([np.hstack] of two 1-D arrays is their concatenation). *)
Definition _get_lvec (labels : vector) : vector :=
  let nlabels := length labels in
  let linear_terms := labels in
  let quadratic_terms :=
    take2 (outer linear_terms linear_terms) (triu_indices nlabels) in
  linear_terms ++ quadratic_terms.

(** [_func(coeffs, *labels)]. *)
Definition _func (coeffs : matrix) (labels : vector) : result vector :=
  let lvec := _get_lvec labels in
  dot coeffs lvec.

(** The products [l_i * l_j], [i <= j], as the specification orders them:
    the row of the first label, then the rows of the labels after it. *)
Fixpoint upper_products (l : vector) : vector :=
  match l with
  | [] => []
  | x :: t => map (fun y => x * y) (x :: t) ++ upper_products t
  end.

(** The number of entries of the upper triangle of an [n] by [n] array that
    lie in the rows before row [i]. *)
Fixpoint triu_offset (n i : nat) : nat :=
  match i with
  | O => 0
  | S k => triu_offset n k + (n - k)
  end.

(** ** The model, the dataset and the world of the driver *)

(** The trained model: the attributes [_infer_labels] reads. *)
Module Model.
Record t : Type := mk {
  coeffs : matrix;     (* npixels rows of 1 + len(lvec) coefficients *)
  scatters : vector;   (* npixels *)
  chisqs : vector;     (* read, never used *)
  pivots : vector      (* nlabels *)
}.
End Model.

Module Dataset.

(** The attributes of the dataset object that [_infer_labels] reads, and
    the label table its setter writes ([None] while no labels were
    assigned). *)
Record t : Type := mk {
  tr_label : matrix;                   (* ntrain by nlabels *)
  test_flux : matrix;                  (* nstars by npixels *)
  test_ivar : matrix;                  (* nstars by npixels *)
  test_label_vals : option matrix      (* nstars by nlabels *)
}.

(** Modelled from the spec: the class of the dataset object, with its
    method [set_test_label_vals], is not among the source files.  The
    specification describes a setter that overwrites the dataset's
    label-value table and touches nothing else, as the setters of the
    earlier [Dataset] classes do ([self.label_vals = label_vals]). *)
Definition set_test_label_vals (vals : matrix) (d : t) : t :=
  {| tr_label := tr_label d;
     test_flux := test_flux d;
     test_ivar := test_ivar d;
     test_label_vals := Some vals |}.

End Dataset.

(** What the driver does to the outside: lines printed, and calls of the
    dataset's setter. *)
Inductive event : Type :=
| Print (line : string)
| PrintGuess (starting_guess : vector)     (* "starting guess: %s" *)
| SetTestLabelVals (vals : matrix).

Definition is_setter_call (e : event) : bool :=
  match e with
  | SetTestLabelVals _ => true
  | _ => false
  end.

Record world : Type := mkWorld {
  dataset : Dataset.t;        (* the state of the dataset object *)
  events : list event         (* oldest first *)
}.

Definition emits (evs : list event) (w : world) : world :=
  {| dataset := dataset w; events := events w ++ evs |}.

(** Computations that may raise, print and call the setter.  The world an
    exception leaves behind is kept: what was done before it stays done. *)
Definition M (A : Type) : Type := world -> result A * world.

Definition ret {A} (a : A) : M A := fun w => (Returned a, w).

Definition bind {A B} (m : M A) (k : A -> M B) : M B :=
  fun w =>
    match m w with
    | (Returned a, w') => k a w'
    | (Raised e, w') => (Raised e, w')
    end.

Definition lift {A} (r : result A) : M A := fun w => (r, w).

Definition print (line : string) : M unit :=
  fun w => (Returned tt, emits [Print line] w).

Definition print_guess (starting_guess : vector) : M unit :=
  fun w => (Returned tt, emits [PrintGuess starting_guess] w).

Definition get_dataset : M Dataset.t :=
  fun w => (Returned (dataset w), w).

(** [dataset.set_test_label_vals(vals)]. *)
Definition call_set_test_label_vals (vals : matrix) : M unit :=
  fun w =>
    (Returned tt,
     {| dataset := Dataset.set_test_label_vals vals (dataset w);
        events := events w ++ [SetTestLabelVals vals] |}).

(** [try: body  except RuntimeError: handler]. *)
Definition try_except_RuntimeError {A} (body handler : M A) : M A :=
  fun w =>
    match body w with
    | (Returned a, w') => (Returned a, w')
    | (Raised e, w') =>
        if is_RuntimeError e then handler w' else (Raised e, w')
    end.

(** [for jj in idxs: state = body(jj, state)]. *)
Fixpoint for_each {S} (idxs : list nat) (body : nat -> S -> M S) (s : S)
  : M S :=
  match idxs with
  | [] => ret s
  | jj :: rest => bind (body jj s) (for_each rest body)
  end.

Declare Scope M_scope.
Delimit Scope M_scope with M.
Notation "x <- m ;; k" := (bind m (fun x => k))
  (at level 61, m at next level, right associativity) : M_scope.
Notation "' p <- m ;; k" := (bind m (fun x => match x with p => k end))
  (at level 61, p pattern, m at next level, right associativity) : M_scope.
Notation "m ;; k" := (bind m (fun _ => k))
  (at level 61, right associativity) : M_scope.

(** ** [_infer_labels] *)

Definition LARGE : R := 200.
Definition SMALL : R := 1 / LARGE.

(** [a[jj, :]] of a 2-D array. *)
Definition row (a : matrix) (jj : nat) : result vector :=
  match nth_error a jj with
  | Some r => Returned r
  | None => Raised IndexError
  end.

(** Lines 80-81, [np.zeros((nstars, k - 1, k - 1.))] with
    [k = coeffs_all.shape[1]].  The second dimension is the int [k - 1];
    the third is written [k - 1.], with a decimal point, and is a float.
    The array, had it been made, is never read. *)
Definition alloc_MCM_rotate_all (nstars k : nat) : result unit :=
  zeros_shape [IntDim (Z.of_nat nstars);
               IntDim (Z.of_nat k - 1);
               FloatDim (INR k - 1)].

(** Lines 90-92: the effective standard deviation of every pixel. *)
Definition effective_sigma (flux ivar scatters : vector) : result vector :=
  (let sig := scalar_op Rmult (ones (length flux)) LARGE in
   let bad := map (fun x => Reqb x 0) ivar in
   ivar_good <- getmask ivar (invert bad) ;;
   scatters_good <- getmask scatters (invert bad) ;;
   variance <- broadcast Rplus (map (fun x => 1 / x) ivar_good)
                               (map (fun s => s ^ 2) scatters_good) ;;
   setmask sig (invert bad) (map sqrt variance))%result.

(** Line 103: the chi-square contribution of every pixel. *)
Definition chi2_terms (flux_piv : vector) (coeffs : matrix)
    (labels ivar scatters : vector) : result vector :=
  (prediction <- _func coeffs labels ;;
   residual <- broadcast Rminus flux_piv prediction ;;
   numerator <- broadcast Rmult (map (fun r => r ^ 2) residual) ivar ;;
   iv_s2 <- broadcast Rmult ivar (map (fun s => s ^ 2) scatters) ;;
   broadcast Rdiv numerator (map (fun x => 1 + x) iv_s2))%result.

(** Lines 101-102: what stands for the fit when [curve_fit] failed. *)
Definition sentinel_labels (starting_guess : vector) : vector :=
  scalar_op Rminus (zeros (length starting_guess)) 9999.

Definition sentinel_covs (starting_guess : vector) : matrix :=
  map (fun r => scalar_op Rminus r 9999)
      (zeros2 (length starting_guess) (length starting_guess)).

(** The three arrays the loop fills: [labels_all], [errs_all], [chisq_all]. *)
Definition outputs : Type := (matrix * matrix * vector)%type.

Section InferLabels.

(** [opt.curve_fit(_func, xdata, ydata, p0=..., sigma=...,
    absolute_sigma=True)]: the optimizer of scipy, which returns the
    fitted parameters and their covariance, or raises.  It is a function of
    its arguments: it prints nothing and does not touch the dataset. *)
Variable curve_fit :
  forall (xdata : matrix) (ydata p0 sigma : vector), result (vector * matrix).

Variable model : Model.t.
Variable starting_guess : vector.

(** Lines 87-93: the rows of star [jj] and what is handed to the fit. *)
Definition prepare (fluxes ivars : matrix) (jj : nat)
  : result (vector * vector * vector * matrix) :=
  (let coeffs_all := Model.coeffs model in
   let scatters := Model.scatters model in
   flux <- row fluxes jj ;;
   ivar <- row ivars jj ;;
   pivot_term <- column0 coeffs_all ;;
   flux_piv <- broadcast Rminus flux (scalar_op Rmult pivot_term 1) ;;
   sig <- effective_sigma flux ivar scatters ;;
   coeffs <- delete_column0 coeffs_all ;;
   Returned (ivar, flux_piv, sig, coeffs))%result.

(** Lines 94-102: the fit of one star, with its fallback. *)
Definition fit_or_sentinel (coeffs : matrix) (flux_piv sig : vector)
  : M (vector * matrix) :=
  try_except_RuntimeError
    (lift (curve_fit coeffs flux_piv starting_guess sig))
    (print "Error - curve_fit failed" ;;
     ret (sentinel_labels starting_guess, sentinel_covs starting_guess))%M.

(** Lines 103-106: the results of star [jj] are written to the arrays. *)
Definition record (nlabels jj : nat) (out : outputs)
    (ivar flux_piv : vector) (coeffs : matrix)
    (labels : vector) (covs : matrix) : result outputs :=
  (let '(labels_all, errs_all, chisq_all) := out in
   let scatters := Model.scatters model in
   let pivots := Model.pivots model in
   chi2 <- chi2_terms flux_piv coeffs labels ivar scatters ;;
   let chisq_all := update jj (sum chi2) chisq_all in
   final_labels <- broadcast Rplus labels pivots ;;
   labels_all <- set_row labels_all nlabels jj final_labels ;;
   errs_all <- set_row errs_all nlabels jj (diagonal covs) ;;
   Returned (labels_all, errs_all, chisq_all))%result.

(** Lines 87-106: the body of the loop. *)
Definition infer_star (nlabels : nat) (fluxes ivars : matrix)
    (jj : nat) (out : outputs) : M outputs :=
  ('(ivar, flux_piv, sig, coeffs) <- lift (prepare fluxes ivars jj) ;;
   '(labels, covs) <- fit_or_sentinel coeffs flux_piv sig ;;
   lift (record nlabels jj out ivar flux_piv coeffs labels covs))%M.

(** Lines 82-109, the part of [_infer_labels] that follows the allocation
    of [MCM_rotate_all]: the other two arrays, the second line printed,
    the loop over the stars, the call of the setter and the return.  It is
    given the values of the local variables [nlabels], [fluxes], [ivars]
    and [labels_all] of lines 74-79. *)
Definition infer_after_allocation (nlabels : nat) (fluxes ivars : matrix)
    (labels_all : matrix) : M (matrix * vector) :=
  (let nstars := shape0 fluxes in
   let errs_all := zeros2 nstars nlabels in
   let chisq_all := zeros nstars in
   print_guess starting_guess ;;
   '(labels_all, errs_all, chisq_all) <-
      for_each (seq 0 nstars) (infer_star nlabels fluxes ivars)
               (labels_all, errs_all, chisq_all) ;;
   call_set_test_label_vals labels_all ;;
   ret (errs_all, chisq_all))%M.

(** [_infer_labels(model, dataset, starting_guess)]; the dataset object
    is the one of the world.  Returns [(errs_all, chisq_all)]. *)
Definition _infer_labels : M (matrix * vector) :=
  (print "Inferring Labels" ;;
   dataset <- get_dataset ;;
   let coeffs_all := Model.coeffs model in
   let chisqs := Model.chisqs model in
   let nlabels := shape1 (Dataset.tr_label dataset) in
   let fluxes := Dataset.test_flux dataset in
   let ivars := Dataset.test_ivar dataset in
   let nstars := shape0 fluxes in
   let labels_all := zeros2 nstars nlabels in
   lift (alloc_MCM_rotate_all nstars (shape1 coeffs_all)) ;;
   infer_after_allocation nlabels fluxes ivars labels_all)%M.

(** *** The loop as a value

    The loop only prints; what it computes can be written without the
    world.  The lemmas [infer_star_run] and [for_each_run] below show that
    these definitions are what [infer_star] and the loop compute. *)

(** The fit of lines 94-102 and what it prints. *)
Definition fit_outcome (coeffs : matrix) (flux_piv sig : vector)
  : result (vector * matrix) :=
  match curve_fit coeffs flux_piv starting_guess sig with
  | Returned fit => Returned fit
  | Raised e =>
      if is_RuntimeError e
      then Returned (sentinel_labels starting_guess,
                     sentinel_covs starting_guess)
      else Raised e
  end.

Definition fit_prints (coeffs : matrix) (flux_piv sig : vector)
  : list event :=
  match curve_fit coeffs flux_piv starting_guess sig with
  | Returned _ => []
  | Raised e =>
      if is_RuntimeError e then [Print "Error - curve_fit failed"] else []
  end.

(** What star [jj] contributes: its row of [labels_all], its row of
    [errs_all] and its entry of [chisq_all]. *)
Definition star_values (nlabels : nat) (fluxes ivars : matrix) (jj : nat)
  : result (vector * vector * R) :=
  ('(ivar, flux_piv, sig, coeffs) <- prepare fluxes ivars jj ;;
   '(labels, covs) <- fit_outcome coeffs flux_piv sig ;;
   chi2 <- chi2_terms flux_piv coeffs labels ivar (Model.scatters model) ;;
   final_labels <- broadcast Rplus labels (Model.pivots model) ;;
   label_row <- broadcast_to nlabels final_labels ;;
   err_row <- broadcast_to nlabels (diagonal covs) ;;
   Returned (label_row, err_row, sum chi2))%result.

Definition star_prints (fluxes ivars : matrix) (jj : nat) : list event :=
  match prepare fluxes ivars jj with
  | Returned (ivar, flux_piv, sig, coeffs) => fit_prints coeffs flux_piv sig
  | Raised _ => []
  end.

Definition store (jj : nat) (v : vector * vector * R) (out : outputs)
  : outputs :=
  let '(label_row, err_row, chisq) := v in
  let '(labels_all, errs_all, chisq_all) := out in
  (update jj label_row labels_all,
   update jj err_row errs_all,
   update jj chisq chisq_all).

Fixpoint loop_outcome (nlabels : nat) (fluxes ivars : matrix)
    (idxs : list nat) (out : outputs) : result outputs :=
  match idxs with
  | [] => Returned out
  | jj :: rest =>
      rbind (star_values nlabels fluxes ivars jj)
            (fun v => loop_outcome nlabels fluxes ivars rest (store jj v out))
  end.

Fixpoint loop_prints (nlabels : nat) (fluxes ivars : matrix)
    (idxs : list nat) : list event :=
  match idxs with
  | [] => []
  | jj :: rest =>
      star_prints fluxes ivars jj ++
      match star_values nlabels fluxes ivars jj with
      | Returned _ => loop_prints nlabels fluxes ivars rest
      | Raised _ => []
      end
  end.

End InferLabels.

(** ** The per-pixel quantities *)

(** The effective standard deviation of a pixel, as lines 90-92 leave it in
    [sig]: [1 * LARGE] where [sig] keeps its initial value. *)
Definition sigma_pixel (iv s : R) : R :=
  if Reqb iv 0 then 1 * LARGE else sqrt (1 / iv + s ^ 2).

(** The chi-square contribution of a pixel with the given residual. *)
Definition chi2_pixel (residual iv s : R) : R :=
  residual ^ 2 * iv / (1 + iv * s ^ 2).

(** The sum of [f 0], ..., [f (n - 1)], added in this order. *)
Fixpoint pixel_sum (f : nat -> R) (n : nat) : R :=
  match n with
  | O => 0
  | S k => pixel_sum f k + f k
  end.

(** ** The shapes of the data model *)

(** The length of the label vector of [nlabels] labels. *)
Definition lvec_length (nlabels : nat) : nat :=
  (nlabels + nlabels * (nlabels + 1) / 2)%nat.

(** The flux of a star relative to the leading coefficients, and the
    coefficients without their leading column. *)
Definition pivot_relative (flux : vector) (coeffs_all : matrix) : vector :=
  zip_with Rminus flux (map (hd 0) coeffs_all).

Definition without_offset (coeffs_all : matrix) : matrix :=
  map (@tl R) coeffs_all.

(** The shape invariants of the model, the spectra and the starting guess
    that lines 82-109 rely on, for [npixels] pixels (at least one) and
    [nlabels] labels. *)
Record well_shaped (model : Model.t) (d : Dataset.t) (starting_guess : vector)
    (npixels nlabels : nat) : Prop := {
  ws_npixels : (1 <= npixels)%nat;
  ws_guess : length starting_guess = nlabels;
  ws_pivots : length (Model.pivots model) = nlabels;
  ws_coeffs : length (Model.coeffs model) = npixels;
  ws_coeffs_row :
    forall r, In r (Model.coeffs model) ->
              length r = S (lvec_length nlabels);
  ws_scatters : length (Model.scatters model) = npixels;
  ws_ivar_rows :
    length (Dataset.test_ivar d) = length (Dataset.test_flux d);
  ws_flux_row : forall r, In r (Dataset.test_flux d) -> length r = npixels;
  ws_ivar_row : forall r, In r (Dataset.test_ivar d) -> length r = npixels
}.

(** The call of the optimizer that lines 89-98 make for star [jj] (lemma
    [prepare_returned]). *)
Definition fit_of_star
    (curve_fit : matrix -> vector -> vector -> vector
                 -> result (vector * matrix))
    (model : Model.t) (starting_guess : vector) (d : Dataset.t) (jj : nat)
  : result (vector * matrix) :=
  curve_fit (without_offset (Model.coeffs model))
            (pivot_relative (nth jj (Dataset.test_flux d) [])
                            (Model.coeffs model))
            starting_guess
            (zip_with sigma_pixel (nth jj (Dataset.test_ivar d) [])
                      (Model.scatters model)).

(** An answer of the optimizer that is either [n] parameters with a
    square covariance of that size, or a RuntimeError. *)
Definition returns_or_fails (n : nat) (fit : result (vector * matrix))
  : Prop :=
  match fit with
  | Returned (popt, pcov) =>
      length popt = n
      /\ length pcov = n
      /\ (forall r, In r pcov -> length r = n)
  | Raised e => is_RuntimeError e = true
  end.

(** The optimizer answers in that way for every star of the dataset. *)
Definition fits_return_or_fail
    (curve_fit : matrix -> vector -> vector -> vector
                 -> result (vector * matrix))
    (model : Model.t) (starting_guess : vector) (d : Dataset.t)
    (nlabels : nat) : Prop :=
  forall jj, (jj < length (Dataset.test_flux d))%nat ->
    returns_or_fails nlabels (fit_of_star curve_fit model starting_guess d jj).

(** ** A small dataset to run the driver on *)

Module Example.

(** Two pixels and one label, with pivot 5; the coefficient rows have
    [1 + lvec_length 1 = 3] entries. *)
Definition model : Model.t :=
  Model.mk [[1; 2; 3]; [0; 1; 1]] [0; 1] [] [5].

(** Two stars; the second pixel of the first star is masked. *)
Definition data : Dataset.t :=
  Dataset.mk [[4]; [6]] [[1; 2]; [3; 4]] [[1; 0]; [1; 1]] (Some [[7]; [8]]).

Definition guess : vector := [1].

Definition start : world := mkWorld data [].

(** An optimizer that never converges, and one that returns its starting
    point. *)
Definition never_converges (xdata : matrix) (ydata p0 sigma : vector)
  : result (vector * matrix) := Raised RuntimeError.

Definition returns_guess (xdata : matrix) (ydata p0 sigma : vector)
  : result (vector * matrix) := Returned (p0, outer p0 p0).


End Example.

(** ** The [Dataset] class of [Code/Version1.2/dataset.py]

    The earlier class of the dataset object: an object with six
    attributes, whose methods update it in place.  A method is a function
    of the state of the object that returns or raises and leaves a state
    behind.  [Code/Version1.1/dataset.py] has the same methods, with
    [label_values] for [label_vals] and no [lambdas]. *)

Module DatasetV12.

Record t : Type := mk {
  IDs : list string;             (* numpy array, one name per star *)
  SNRs : vector;
  lambdas : vector;
  spectra : list matrix;         (* numpy array, nstars by npixels by 2 *)
  label_names : list string;     (* Python list *)
  label_vals : option matrix     (* nstars by nlabels, or None *)
}.

Definition Method (A : Type) : Type := t -> result A * t.

Definition ret {A} (a : A) : Method A := fun self => (Returned a, self).

Definition bind {A B} (m : Method A) (k : A -> Method B) : Method B :=
  fun self =>
    match m self with
    | (Returned a, self') => k a self'
    | (Raised e, self') => (Raised e, self')
    end.

Definition lift {A} (r : result A) : Method A := fun self => (r, self).

Definition get : Method t := fun self => (Returned self, self).

Definition set_IDs (v : list string) : Method unit :=
  fun self =>
    (Returned tt,
     mk v (SNRs self) (lambdas self) (spectra self) (label_names self)
        (label_vals self)).

Definition set_lambdas (v : vector) : Method unit :=
  fun self =>
    (Returned tt,
     mk (IDs self) (SNRs self) v (spectra self) (label_names self)
        (label_vals self)).

Definition set_spectra (v : list matrix) : Method unit :=
  fun self =>
    (Returned tt,
     mk (IDs self) (SNRs self) (lambdas self) v (label_names self)
        (label_vals self)).

Definition set_label_names (v : list string) : Method unit :=
  fun self =>
    (Returned tt,
     mk (IDs self) (SNRs self) (lambdas self) (spectra self) v
        (label_vals self)).

Definition set_label_vals (v : option matrix) : Method unit :=
  fun self =>
    (Returned tt,
     mk (IDs self) (SNRs self) (lambdas self) (spectra self)
        (label_names self) v).

(** The position an index [i] denotes in a sequence of [n] items, for a
    Python list as for a numpy array: [-n <= i < 0] counts from the end,
    anything outside [-n <= i < n] is an IndexError. *)
Definition position (n : nat) (i : Z) : result nat :=
  if ((0 <=? i) && (i <? Z.of_nat n))%Z then Returned (Z.to_nat i)
  else if ((- Z.of_nat n <=? i) && (i <? 0))%Z
       then Returned (Z.to_nat (i + Z.of_nat n))
       else Raised IndexError.

(** [l[i]] on a Python list. *)
Definition item {A} (d : A) (l : list A) (i : Z) : result A :=
  rbind (position (length l) i) (fun p => Returned (nth p l d)).

(** [a[idx] = v] for a list [idx] of integer indices into a 1-D array. *)
Definition set_items {A} (a : list A) (idx : list Z) (v : A)
  : result (list A) :=
  rbind (rmap (position (length a)) idx)
        (fun ps => Returned (fold_left (fun m p => update p v m) ps a)).

(** [a[mask]] along the first axis, for a boolean array [mask]: the items
    where the mask is True; IndexError unless the mask has the length of
    the axis. *)
Fixpoint take {A} (a : list A) (mask : list bool) : list A :=
  match a, mask with
  | x :: a', b :: mask' => if b then x :: take a' mask' else take a' mask'
  | _, _ => []
  end.

Definition masked {A} (a : list A) (mask : list bool) : result (list A) :=
  if (length a =? length mask)%nat then Returned (take a mask)
  else Raised IndexError.

(** [a[:, mask]] on a 2-D array. *)
Definition columns (a : matrix) (mask : list bool) : result matrix :=
  rmap (fun r => masked r mask) a.

(** [x[...]] where [x] may be None: TypeError ("'NoneType' object is not
    subscriptable"). *)
Definition subscript {A} (x : option matrix) (f : matrix -> result A)
  : result A :=
  match x with
  | Some a => f a
  | None => Raised TypeError
  end.

Declare Scope method_scope.
Delimit Scope method_scope with method.
Notation "x <- m ;; k" := (bind m (fun x => k))
  (at level 61, m at next level, right associativity) : method_scope.
Notation "m ;; k" := (bind m (fun _ => k))
  (at level 61, right associativity) : method_scope.

(** [choose_labels(self, cols)], [cols] a list of column indices. *)
Definition choose_labels (cols : list Z) : Method unit :=
  (self <- get ;;
   new_label_names <-
     lift (rmap (item EmptyString (label_names self)) cols) ;;
   let colmask := repeat false (length (label_names self)) in
   colmask <- lift (set_items colmask cols true) ;;
   new_label_vals <-
     lift (subscript (label_vals self) (fun a => columns a colmask)) ;;
   set_label_names new_label_names ;;
   set_label_vals (Some new_label_vals))%method.

(** [choose_spectra(self, mask)], [mask] a boolean array over the stars. *)
Definition choose_spectra (mask : list bool) : Method unit :=
  (self <- get ;;
   ids <- lift (masked (IDs self) mask) ;;
   set_IDs ids ;;
   self <- get ;;
   sp <- lift (masked (spectra self) mask) ;;
   set_spectra sp ;;
   self <- get ;;
   lv <- lift (subscript (label_vals self) (fun a => masked a mask)) ;;
   set_label_vals (Some lv))%method.

(** What [choose_labels] computes before it touches the object (lemma
    [choose_labels_run]). *)
Definition chosen (cols : list Z) (d : t) : result (list string * matrix) :=
  (new_label_names <- rmap (item EmptyString (label_names d)) cols ;;
   colmask <- set_items (repeat false (length (label_names d))) cols true ;;
   new_label_vals <- subscript (label_vals d) (fun a => columns a colmask) ;;
   Returned (new_label_names, new_label_vals))%result.

(** The mask that keeps, of the items a first mask keeps, those a second
    mask keeps. *)
Fixpoint both (m1 m2 : list bool) : list bool :=
  match m1 with
  | [] => []
  | false :: t => false :: both t m2
  | true :: t =>
      match m2 with
      | b :: m2' => b :: both t m2'
      | [] => false :: both t []
      end
  end.

(** Column positions in strictly increasing order, none below [a]. *)
Fixpoint increasing_from (a : nat) (ps : list nat) : Prop :=
  match ps with
  | [] => True
  | p :: t => (a <= p)%nat /\ increasing_from (S p) t
  end.

End DatasetV12.

(** ** Further datasets for the model of [Example] *)

Module Cases.

(** One star, with both pixels masked. *)
Definition masked : Dataset.t :=
  Dataset.mk [[4]] [[1; 2]] [[0; 0]] None.

(** One star, whose flux is the model of [Example.model] at the label 1:
    [1 + 2*1 + 3*1*1 = 6] and [0 + 1*1 + 1*1*1 = 2]. *)
Definition exact : Dataset.t :=
  Dataset.mk [[4]] [[6; 2]] [[1; 1]] None.



(** A catalogue of three stars with two pixels and three labels, in the
    older [Dataset] class, and the same catalogue without label values. *)
Definition catalog : DatasetV12.t :=
  DatasetV12.mk ["s1"; "s2"; "s3"]%string [10; 20; 30] [1; 2]
    [[[1; 0]; [2; 0]]; [[3; 0]; [4; 0]]; [[5; 0]; [6; 0]]]
    ["teff"; "logg"; "feh"]%string
    (Some [[1; 2; 3]; [4; 5; 6]; [7; 8; 9]]).

Definition unlabeled : DatasetV12.t :=
  DatasetV12.mk ["s1"; "s2"; "s3"]%string [10; 20; 30] [1; 2]
    [[[1; 0]; [2; 0]]; [[3; 0]; [4; 0]]; [[5; 0]; [6; 0]]]
    ["teff"; "logg"; "feh"]%string None.

End Cases.

(** * Proofs *)

(** ** Properties of [_get_lvec] *)

Section LabelVector.

Lemma map_nth_seq (f : R -> R) (l : vector) :
  map (fun j => f (nth j l 0)) (seq 0 (length l)) = map f l.
Proof.
  induction l as [|x t IH]; simpl; [reflexivity|].
  f_equal. rewrite <- seq_shift, map_map. exact IH.
Qed.

Lemma flat_map_ext_in {A B} (f g : A -> list B) (l : list A) :
  (forall a, In a l -> f a = g a) -> flat_map f l = flat_map g l.
Proof.
  induction l as [|x t IH]; simpl; intros H; [reflexivity|].
  rewrite (H x) by (left; reflexivity).
  f_equal. apply IH. intros a Ha. apply H. right. exact Ha.
Qed.

Lemma map_flat_map {A B C} (h : B -> C) (f : A -> list B) (l : list A) :
  map h (flat_map f l) = flat_map (fun a => map h (f a)) l.
Proof.
  induction l as [|x t IH]; simpl; [reflexivity|].
  rewrite map_app, IH. reflexivity.
Qed.

Lemma flat_map_map {A B C} (f : B -> list C) (h : A -> B) (l : list A) :
  flat_map f (map h l) = flat_map (fun a => f (h a)) l.
Proof.
  induction l as [|x t IH]; simpl; [reflexivity|].
  rewrite IH. reflexivity.
Qed.

Lemma nth_outer (l : vector) (i j : nat) :
  (i < length l)%nat ->
  nth j (nth i (outer l l) []) 0 = nth i l 0 * nth j l 0.
Proof.
  intros Hi. unfold outer.
  rewrite (nth_indep _ [] (map (fun y => 0 * y) l))
    by (rewrite length_map; exact Hi).
  rewrite (map_nth (fun x => map (fun y => x * y) l) l 0 i).
  destruct (Nat.lt_ge_cases j (length l)) as [Hj|Hj].
  - rewrite (nth_indep _ 0 (nth i l 0 * 0))
      by (rewrite length_map; exact Hj).
    apply (map_nth (fun y => nth i l 0 * y)).
  - rewrite (@nth_overflow _ l j 0 Hj).
    rewrite nth_overflow by (rewrite length_map; exact Hj). ring.
Qed.

(** The upper triangle of the outer product, read through
    [np.triu_indices], is the list of products of each label with itself
    and the labels after it. *)
Lemma take2_outer_rows (l : vector) :
  take2 (outer l l) (triu_indices (length l)) =
  flat_map (fun i => map (fun j => nth i l 0 * nth j l 0)
                         (seq i (length l - i)))
           (seq 0 (length l)).
Proof.
  unfold take2, triu_indices. rewrite map_flat_map.
  apply flat_map_ext_in. intros i Hi. apply in_seq in Hi.
  rewrite map_map. apply map_ext. intros j. simpl.
  apply nth_outer. lia.
Qed.

Lemma rows_upper_products (l : vector) :
  flat_map (fun i => map (fun j => nth i l 0 * nth j l 0)
                         (seq i (length l - i)))
           (seq 0 (length l)) = upper_products l.
Proof.
  induction l as [|x t IH]; [reflexivity|].
  cbn [length seq flat_map upper_products]. f_equal.
  - rewrite Nat.sub_0_r.
    exact (map_nth_seq (fun y => x * y) (x :: t)).
  - rewrite <- IH, <- seq_shift, flat_map_map.
    apply flat_map_ext. intros i.
    replace (S (length t) - S i)%nat with (length t - i)%nat by lia.
    rewrite <- seq_shift, map_map. reflexivity.
Qed.

Lemma take2_outer_triu (l : vector) :
  take2 (outer l l) (triu_indices (length l)) = upper_products l.
Proof. rewrite take2_outer_rows. apply rows_upper_products. Qed.

Lemma length_upper_products_twice (l : vector) :
  (2 * length (upper_products l) = length l * (length l + 1))%nat.
Proof.
  induction l as [|x t IH]; [reflexivity|].
  cbn [upper_products]. rewrite length_app, length_map. cbn [length]. lia.
Qed.

Lemma length_upper_products (l : vector) :
  length (upper_products l) = (length l * (length l + 1) / 2)%nat.
Proof.
  rewrite <- length_upper_products_twice, Nat.mul_comm.
  symmetry. apply Nat.div_mul. discriminate.
Qed.

Lemma triu_offset_succ (m i : nat) :
  triu_offset (S m) (S i) = (S m + triu_offset m i)%nat.
Proof.
  induction i as [|k IH]; [simpl; lia|].
  change (triu_offset (S m) (S (S k)))
    with (triu_offset (S m) (S k) + (S m - S k))%nat.
  rewrite IH. simpl. lia.
Qed.

Lemma nth_upper_products (l : vector) :
  forall i j, (i <= j < length l)%nat ->
  nth (triu_offset (length l) i + (j - i)) (upper_products l) 0 =
  nth i l 0 * nth j l 0.
Proof.
  induction l as [|x t IH]; intros i j Hij; [simpl in Hij; lia|].
  cbn [length upper_products] in *.
  destruct i as [|i].
  - cbn [triu_offset]. rewrite Nat.add_0_l, Nat.sub_0_r.
    rewrite app_nth1 by (rewrite length_map; cbn [length]; lia).
    rewrite (nth_indep _ 0 (x * 0)) by (rewrite length_map; cbn [length]; lia).
    apply (map_nth (fun y => x * y)).
  - destruct j as [|j]; [lia|].
    rewrite triu_offset_succ.
    rewrite app_nth2 by (rewrite length_map; cbn [length]; lia).
    rewrite length_map. cbn [length nth].
    replace (S (length t) + triu_offset (length t) i + (S j - S i)
             - S (length t))%nat
      with (triu_offset (length t) i + (j - i))%nat by lia.
    apply IH. lia.
Qed.

Lemma _get_lvec_eq (labels : vector) :
  _get_lvec labels = labels ++ upper_products labels.
Proof. unfold _get_lvec. rewrite take2_outer_triu. reflexivity. Qed.

End LabelVector.

(** C4. For a label tuple of any length [nlabels] (in particular every
    [nlabels >= 1]), [_get_lvec] returns a vector of length
    [nlabels + nlabels*(nlabels+1)/2]: first the labels unchanged, then the
    products [label_i * label_j], [i <= j], row by row of the upper
    triangle with the diagonal included (the product for [(i, j)] sits at
    position [nlabels + triu_offset nlabels i + (j - i)]); for two labels
    [(a, b)] the result is [(a, b, a*a, a*b, b*b)]. *)
Theorem get_lvec_quadratic_expansion (labels : vector) :
  let nlabels := length labels in
  length (_get_lvec labels) = (nlabels + nlabels * (nlabels + 1) / 2)%nat
  /\ firstn nlabels (_get_lvec labels) = labels
  /\ skipn nlabels (_get_lvec labels) = upper_products labels
  /\ (forall i j, (i <= j < nlabels)%nat ->
        nth (nlabels + (triu_offset nlabels i + (j - i))) (_get_lvec labels) 0
        = nth i labels 0 * nth j labels 0)
  /\ (forall a b, _get_lvec [a; b] = [a; b; a * a; a * b; b * b]).
Proof.
  intros nlabels. subst nlabels. rewrite _get_lvec_eq.
  split; [|split; [|split; [|split]]].
  - rewrite length_app, length_upper_products. reflexivity.
  - rewrite firstn_app, Nat.sub_diag, firstn_all. simpl. apply app_nil_r.
  - rewrite skipn_app, Nat.sub_diag, skipn_all. reflexivity.
  - intros i j Hij. rewrite app_nth2_plus. apply nth_upper_products. exact Hij.
  - intros a b. reflexivity.
Qed.

(** ** Array lemmas *)

Section ArrayLemmas.

Lemma length_zip_with f (a b : vector) :
  length a = length b -> length (zip_with f a b) = length a.
Proof.
  revert b. induction a as [|x a IH]; intros [|y b] H; simpl in *;
    try discriminate; [reflexivity|].
  f_equal. apply IH. congruence.
Qed.

Lemma nth_zip_with f (a b : vector) (d da db : R) :
  length a = length b ->
  forall i, (i < length a)%nat ->
  nth i (zip_with f a b) d = f (nth i a da) (nth i b db).
Proof.
  revert b. induction a as [|x a IH]; intros [|y b] H i Hi; simpl in *;
    try discriminate; [lia|].
  destruct i as [|i]; [reflexivity|].
  apply IH; [congruence | lia].
Qed.

Lemma nth_map_lt {A} (f : A -> R) (l : list A) (d : R) (dA : A) (i : nat) :
  (i < length l)%nat -> nth i (map f l) d = f (nth i l dA).
Proof.
  intros H. rewrite (nth_indep _ d (f dA)) by (rewrite length_map; exact H).
  apply map_nth.
Qed.

Lemma broadcast_same_length f (a b : vector) :
  length a = length b -> broadcast f a b = Returned (zip_with f a b).
Proof. intros H. unfold broadcast. rewrite H, Nat.eqb_refl. reflexivity. Qed.

Lemma broadcast_mismatch f (a b : vector) :
  length a <> length b -> length a <> 1%nat -> length b <> 1%nat ->
  broadcast f a b = Raised ValueError.
Proof.
  intros Hab Ha Hb. unfold broadcast.
  apply Nat.eqb_neq in Hab. rewrite Hab.
  destruct a as [|x [|x' a]]; destruct b as [|y [|y' b]];
    simpl in *; try reflexivity; congruence.
Qed.

Lemma broadcast_to_same (n : nat) (v : vector) :
  length v = n -> broadcast_to n v = Returned v.
Proof. intros H. unfold broadcast_to. rewrite H, Nat.eqb_refl. reflexivity. Qed.

Lemma length_update {A} (jj : nat) (x : A) (l : list A) :
  length (update jj x l) = length l.
Proof.
  revert jj. induction l as [|y t IH]; intros [|k]; simpl; auto.
Qed.

Lemma nth_update_eq {A} (jj : nat) (x d : A) (l : list A) :
  (jj < length l)%nat -> nth jj (update jj x l) d = x.
Proof.
  revert jj. induction l as [|y t IH]; intros [|k] H; simpl in *;
    try lia; [reflexivity|].
  apply IH. lia.
Qed.

Lemma nth_update_neq {A} (jj k : nat) (x d : A) (l : list A) :
  jj <> k -> nth k (update jj x l) d = nth k l d.
Proof.
  revert jj k. induction l as [|y t IH]; intros [|j] [|k] H; simpl;
    try reflexivity; try congruence.
  apply IH. congruence.
Qed.

Lemma rmap_returned_length {A B} (f : A -> result B) (l : list A) ys :
  rmap f l = Returned ys -> length ys = length l.
Proof.
  revert ys. induction l as [|x t IH]; simpl; intros ys H.
  - inversion H. reflexivity.
  - destruct (f x) as [y|e]; simpl in H; [|discriminate].
    destruct (rmap f t) as [ys'|e]; simpl in H; [|discriminate].
    inversion H. simpl. f_equal. apply IH. reflexivity.
Qed.

Lemma rmap_returned_nth {A B} (f : A -> result B) (l : list A) ys dA dB :
  rmap f l = Returned ys ->
  forall i, (i < length l)%nat -> f (nth i l dA) = Returned (nth i ys dB).
Proof.
  revert ys. induction l as [|x t IH]; simpl; intros ys H i Hi; [lia|].
  destruct (f x) as [y|e] eqn:Ex; simpl in H; [|discriminate].
  destruct (rmap f t) as [ys'|e]; simpl in H; [|discriminate].
  inversion H; subst. destruct i as [|i]; [exact Ex|].
  simpl. apply IH; [reflexivity | lia].
Qed.

Lemma rmap_total {A B} (f : A -> result B) (g : A -> B) (l : list A) :
  (forall x, In x l -> f x = Returned (g x)) ->
  rmap f l = Returned (map g l).
Proof.
  induction l as [|x t IH]; simpl; intros H; [reflexivity|].
  rewrite (H x) by (left; reflexivity). simpl.
  rewrite IH by (intros y Hy; apply H; right; exact Hy). reflexivity.
Qed.

Lemma sum_app (a : vector) (x : R) : sum (a ++ [x]) = sum a + x.
Proof. unfold sum. rewrite fold_left_app. reflexivity. Qed.

Lemma length_select (a : vector) (mask : list bool) :
  length a = length mask -> length (select a mask) = count_true mask.
Proof.
  revert mask. induction a as [|x a IH]; intros [|b mask] H; simpl in *;
    try discriminate; [reflexivity|].
  unfold count_true in *. destruct b; simpl; rewrite IH; congruence.
Qed.

End ArrayLemmas.

Section PixelLemmas.

Lemma sigma_scatter (ivar : vector) :
  forall (scatters : vector) (n : nat),
  length ivar = n -> length scatters = n ->
  let good := invert (map (fun x => Reqb x 0) ivar) in
  scatter_into (scalar_op Rmult (ones n) LARGE) good
    (map sqrt (zip_with Rplus (map (fun x => 1 / x) (select ivar good))
                              (map (fun s => s ^ 2) (select scatters good))))
  = zip_with sigma_pixel ivar scatters.
Proof.
  induction ivar as [|iv ivar IH]; intros [|s scatters] [|n] Hi Hs;
    simpl in *; try discriminate; [reflexivity|].
  injection Hi as Hi. injection Hs as Hs.
  unfold sigma_pixel at 1.
  destruct (Reqb iv 0); simpl; f_equal; apply IH; assumption.
Qed.

Lemma effective_sigma_returned (flux ivar scatters : vector) :
  length ivar = length flux -> length scatters = length flux ->
  effective_sigma flux ivar scatters
  = Returned (zip_with sigma_pixel ivar scatters).
Proof.
  intros Hi Hs. unfold effective_sigma.
  set (good := invert (map (fun x => Reqb x 0) ivar)).
  assert (Hg : length good = length flux)
    by (unfold good, invert; rewrite !length_map; exact Hi).
  unfold getmask. rewrite Hi, Hs, Hg, Nat.eqb_refl. simpl.
  rewrite broadcast_same_length
    by (rewrite !length_map, !length_select; congruence).
  simpl. unfold setmask.
  replace (length (scalar_op Rmult (ones (length flux)) LARGE))
    with (length flux)
    by (unfold scalar_op, ones; rewrite length_map, repeat_length; reflexivity).
  rewrite Hg, Nat.eqb_refl.
  rewrite length_map, length_zip_with
    by (rewrite !length_map, !length_select; congruence).
  rewrite length_map, length_select by congruence.
  rewrite Nat.eqb_refl. f_equal.
  apply sigma_scatter; assumption.
Qed.

Lemma pixel_sum_ext (f g : nat -> R) (n : nat) :
  (forall i, (i < n)%nat -> f i = g i) -> pixel_sum f n = pixel_sum g n.
Proof.
  induction n as [|n IH]; intros H; simpl; [reflexivity|].
  rewrite IH by (intros i Hi; apply H; lia).
  rewrite (H n) by lia. reflexivity.
Qed.

Lemma sum_pixel_sum (a : vector) :
  sum a = pixel_sum (fun i => nth i a 0) (length a).
Proof.
  induction a as [|x a IH] using rev_ind; [reflexivity|].
  rewrite sum_app, length_app, Nat.add_comm. cbn [length Nat.add pixel_sum].
  rewrite nth_middle. f_equal. rewrite IH.
  apply pixel_sum_ext. intros i Hi. rewrite app_nth1 by exact Hi. reflexivity.
Qed.

Lemma chi2_pixel_zero_ivar (residual s : R) : chi2_pixel residual 0 s = 0.
Proof. unfold chi2_pixel, Rdiv. ring. Qed.

Lemma _func_returned (coeffs : matrix) (labels : vector) :
  (forall r, In r coeffs -> length r = length (_get_lvec labels)) ->
  _func coeffs labels
  = Returned (map (fun r => dot1 r (_get_lvec labels)) coeffs).
Proof.
  intros H. unfold _func, dot. apply rmap_total.
  intros r Hr. rewrite (H r Hr), Nat.eqb_refl. reflexivity.
Qed.

(** On arrays of one length, line 103 computes [chi2_pixel] pixel by
    pixel. *)
Lemma chi2_terms_returned (flux_piv : vector) (coeffs : matrix)
    (labels ivar scatters : vector) :
  length coeffs = length flux_piv ->
  length ivar = length flux_piv ->
  length scatters = length flux_piv ->
  (forall r, In r coeffs -> length r = length (_get_lvec labels)) ->
  exists chi2,
    chi2_terms flux_piv coeffs labels ivar scatters = Returned chi2
    /\ length chi2 = length flux_piv
    /\ forall i, (i < length flux_piv)%nat ->
         nth i chi2 0
         = chi2_pixel (nth i flux_piv 0
                       - dot1 (nth i coeffs []) (_get_lvec labels))
                      (nth i ivar 0) (nth i scatters 0).
Proof.
  intros Hc Hi Hs Hrows. unfold chi2_terms.
  rewrite (_func_returned _ _ Hrows). cbn [rbind].
  set (pred := map (fun r => dot1 r (_get_lvec labels)) coeffs).
  assert (Hp : length pred = length flux_piv)
    by (unfold pred; rewrite length_map; exact Hc).
  rewrite broadcast_same_length by congruence. cbn [rbind].
  set (res := zip_with Rminus flux_piv pred).
  assert (Hr : length res = length flux_piv)
    by (unfold res; apply length_zip_with; congruence).
  rewrite broadcast_same_length by (rewrite length_map; congruence).
  cbn [rbind].
  rewrite (broadcast_same_length Rmult ivar)
    by (rewrite length_map; congruence).
  cbn [rbind].
  set (num := zip_with Rmult (map (fun r => r ^ 2) res) ivar).
  set (ivs := zip_with Rmult ivar (map (fun s => s ^ 2) scatters)).
  assert (Hn : length num = length flux_piv).
  { unfold num. rewrite length_zip_with; rewrite length_map; congruence. }
  assert (Hv : length ivs = length flux_piv).
  { unfold ivs. rewrite length_zip_with; [|rewrite length_map]; congruence. }
  rewrite broadcast_same_length by (rewrite length_map; congruence).
  eexists. split; [reflexivity|]. split.
  - rewrite length_zip_with; [|rewrite length_map]; congruence.
  - intros i Hlt.
    rewrite (nth_zip_with Rdiv num _ 0 0 0)
      by (try rewrite length_map; congruence || lia).
    unfold num. rewrite (nth_zip_with Rmult _ ivar 0 0 0)
      by (try rewrite length_map; congruence || lia).
    rewrite (nth_map_lt (fun r => r ^ 2) res 0 0) by lia.
    rewrite (nth_map_lt (fun x => 1 + x) ivs 0 0) by lia.
    unfold ivs. rewrite (nth_zip_with Rmult ivar _ 0 0 0)
      by (try rewrite length_map; congruence || lia).
    rewrite (nth_map_lt (fun s => s ^ 2) scatters 0 0) by lia.
    unfold res. rewrite (nth_zip_with Rminus flux_piv pred 0 0 0)
      by (congruence || lia).
    unfold pred. rewrite (nth_map_lt _ coeffs 0 []) by lia.
    reflexivity.
Qed.

End PixelLemmas.

(** ** The driver, run *)

Section Runs.

Variable curve_fit :
  forall (xdata : matrix) (ydata p0 sigma : vector), result (vector * matrix).
Variable model : Model.t.
Variable starting_guess : vector.

Lemma emits_nil (w : world) : emits [] w = w.
Proof. destruct w. unfold emits. simpl. rewrite app_nil_r. reflexivity. Qed.

Lemma emits_emits (a b : list event) (w : world) :
  emits b (emits a w) = emits (a ++ b) w.
Proof. unfold emits. simpl. rewrite app_assoc. reflexivity. Qed.

Lemma fit_or_sentinel_run coeffs flux_piv sig (w : world) :
  fit_or_sentinel curve_fit starting_guess coeffs flux_piv sig w
  = (fit_outcome curve_fit starting_guess coeffs flux_piv sig,
     emits (fit_prints curve_fit starting_guess coeffs flux_piv sig) w).
Proof.
  unfold fit_or_sentinel, try_except_RuntimeError, lift, fit_outcome,
    fit_prints.
  destruct (curve_fit coeffs flux_piv starting_guess sig) as [fit|e].
  - rewrite emits_nil. reflexivity.
  - destruct (is_RuntimeError e); [reflexivity|].
    rewrite emits_nil. reflexivity.
Qed.

Lemma record_values nlabels jj out ivar flux_piv coeffs labels covs :
  record model nlabels jj out ivar flux_piv coeffs labels covs
  = (chi2 <- chi2_terms flux_piv coeffs labels ivar (Model.scatters model) ;;
     final_labels <- broadcast Rplus labels (Model.pivots model) ;;
     label_row <- broadcast_to nlabels final_labels ;;
     err_row <- broadcast_to nlabels (diagonal covs) ;;
     Returned (store jj (label_row, err_row, sum chi2) out))%result.
Proof.
  unfold record, set_row. destruct out as [[labels_all errs_all] chisq_all].
  destruct (chi2_terms _ _ _ _ _) as [chi2|e]; [|reflexivity]. cbn [rbind].
  destruct (broadcast Rplus _ _) as [fl|e]; [|reflexivity]. cbn [rbind].
  destruct (broadcast_to nlabels fl) as [lr|e]; [|reflexivity]. cbn [rbind].
  destruct (broadcast_to nlabels (diagonal covs)) as [er|e]; reflexivity.
Qed.

Lemma infer_star_run nlabels fluxes ivars jj out (w : world) :
  infer_star curve_fit model starting_guess nlabels fluxes ivars jj out w
  = (rbind (star_values curve_fit model starting_guess nlabels fluxes ivars jj)
           (fun v => Returned (store jj v out)),
     emits (star_prints curve_fit model starting_guess fluxes ivars jj) w).
Proof.
  unfold infer_star, star_values, star_prints, bind, lift.
  destruct (prepare model fluxes ivars jj) as [[[[ivar flux_piv] sig] coeffs]|e];
    [|rewrite emits_nil; reflexivity].
  rewrite fit_or_sentinel_run. cbn [rbind].
  destruct (fit_outcome _ _ _ _ _) as [[labels covs]|e]; [|reflexivity].
  cbn [rbind]. rewrite record_values.
  destruct (chi2_terms _ _ _ _ _) as [chi2|e]; [|reflexivity]. cbn [rbind].
  destruct (broadcast Rplus _ _) as [fl|e]; [|reflexivity]. cbn [rbind].
  destruct (broadcast_to nlabels fl) as [lr|e]; [|reflexivity]. cbn [rbind].
  destruct (broadcast_to nlabels (diagonal covs)) as [er|e]; reflexivity.
Qed.

Lemma for_each_run nlabels fluxes ivars idxs :
  forall out (w : world),
  for_each idxs
    (infer_star curve_fit model starting_guess nlabels fluxes ivars) out w
  = (loop_outcome curve_fit model starting_guess nlabels fluxes ivars idxs out,
     emits (loop_prints curve_fit model starting_guess nlabels fluxes ivars idxs)
           w).
Proof.
  induction idxs as [|jj rest IH]; intros out w; simpl.
  - unfold ret. rewrite emits_nil. reflexivity.
  - unfold bind. rewrite infer_star_run.
    destruct (star_values _ _ _ _ _ _ jj) as [v|e]; cbn [rbind].
    + rewrite IH, emits_emits. reflexivity.
    + rewrite app_nil_r. reflexivity.
Qed.

(** [np.zeros] raises TypeError on a shape with a float in it, whatever
    the other dimensions are. *)
Lemma zeros_shape_float (before after : list dim) (x : R) :
  zeros_shape (before ++ FloatDim x :: after) = Raised TypeError.
Proof.
  unfold zeros_shape.
  induction before as [|[n|y] before IH]; cbn [app rmap rbind].
  - reflexivity.
  - destruct (rmap _ (before ++ FloatDim x :: after)) as [ns|e];
      cbn [rbind] in IH |- *; [|exact IH].
    destruct (forallb _ ns); discriminate.
  - reflexivity.
Qed.

Lemma alloc_MCM_rotate_all_raises (nstars k : nat) :
  alloc_MCM_rotate_all nstars k = Raised TypeError.
Proof.
  exact (zeros_shape_float
           [IntDim (Z.of_nat nstars); IntDim (Z.of_nat k - 1)] []
           (INR k - 1)).
Qed.

(** The driver as it runs: the first line is printed, then the allocation
    of lines 80-81 raises. *)
Lemma _infer_labels_run (w : world) :
  _infer_labels curve_fit model starting_guess w
  = (Raised TypeError, emits [Print "Inferring Labels"] w).
Proof.
  unfold _infer_labels, bind, print, get_dataset, lift.
  rewrite alloc_MCM_rotate_all_raises. reflexivity.
Qed.

(** The run of lines 82-109, from the world they start in. *)
Lemma infer_after_allocation_run nlabels fluxes ivars labels_all (w : world) :
  infer_after_allocation curve_fit model starting_guess nlabels fluxes ivars
                         labels_all w
  = let nstars := shape0 fluxes in
    let prints :=
      PrintGuess starting_guess ::
      loop_prints curve_fit model starting_guess nlabels fluxes ivars
                  (seq 0 nstars) in
    match loop_outcome curve_fit model starting_guess nlabels fluxes ivars
            (seq 0 nstars)
            (labels_all, zeros2 nstars nlabels, zeros nstars)
    with
    | Raised e => (Raised e, emits prints w)
    | Returned (labels_all, errs_all, chisq_all) =>
        (Returned (errs_all, chisq_all),
         {| dataset := Dataset.set_test_label_vals labels_all (dataset w);
            events := events w ++ prints ++ [SetTestLabelVals labels_all] |})
    end.
Proof.
  unfold infer_after_allocation, bind, print_guess.
  rewrite for_each_run. cbv zeta.
  destruct (loop_outcome _ _ _ _ _ _ _ _) as [[[la ea] ca]|e].
  - unfold call_set_test_label_vals, ret, emits. cbn [dataset events].
    rewrite <- !app_assoc. reflexivity.
  - unfold emits. cbn [dataset events]. rewrite <- !app_assoc. reflexivity.
Qed.

(** What a loop that returned has left in the three arrays. *)
Lemma loop_outcome_returned nlabels fluxes ivars idxs :
  forall la ea ca la' ea' ca',
  NoDup idxs ->
  loop_outcome curve_fit model starting_guess nlabels fluxes ivars idxs
               (la, ea, ca) = Returned (la', ea', ca') ->
  (length la' = length la /\ length ea' = length ea
   /\ length ca' = length ca)
  /\ (forall jj, In jj idxs ->
        exists lr er c,
          star_values curve_fit model starting_guess nlabels fluxes ivars jj
          = Returned (lr, er, c)
          /\ ((jj < length la)%nat -> nth jj la' [] = lr)
          /\ ((jj < length ea)%nat -> nth jj ea' [] = er)
          /\ ((jj < length ca)%nat -> nth jj ca' 0 = c))
  /\ (forall jj, ~ In jj idxs ->
        nth jj la' [] = nth jj la [] /\ nth jj ea' [] = nth jj ea []
        /\ nth jj ca' 0 = nth jj ca 0).
Proof.
  induction idxs as [|k rest IH]; intros la ea ca la' ea' ca' Hnd H.
  - simpl in H. inversion H; subst.
    split; [auto|]. split; [intros jj []|]. intros jj _. auto.
  - simpl in H. inversion Hnd as [|? ? Hk Hnd']; subst.
    destruct (star_values _ _ _ _ _ _ k) as [[[lr er] c]|e] eqn:Ek;
      [|discriminate].
    cbn [rbind store] in H.
    destruct (IH _ _ _ _ _ _ Hnd' H) as [(L1 & L2 & L3) [Hin Hout]].
    rewrite length_update in L1. rewrite length_update in L2.
    rewrite length_update in L3.
    split; [auto|]. split.
    + intros jj [->|Hjj].
      * exists lr, er, c. split; [exact Ek|].
        destruct (Hout jj Hk) as (N1 & N2 & N3).
        rewrite N1, N2, N3.
        repeat split; intros Hlt; apply nth_update_eq; exact Hlt.
      * destruct (Hin jj Hjj) as (lr' & er' & c' & E & N1 & N2 & N3).
        exists lr', er', c'. rewrite length_update in N1.
        rewrite length_update in N2. rewrite length_update in N3. auto.
    + intros jj Hjj.
      assert (k <> jj) by (intros ->; apply Hjj; left; reflexivity).
      assert (~ In jj rest) by (intros F; apply Hjj; right; exact F).
      destruct (Hout jj) as (N1 & N2 & N3); [assumption|].
      rewrite N1, N2, N3.
      repeat split; apply nth_update_neq; assumption.
Qed.

(** The loop returns when every star's values can be computed. *)
Lemma loop_outcome_total nlabels fluxes ivars idxs :
  (forall jj, In jj idxs ->
     exists v,
       star_values curve_fit model starting_guess nlabels fluxes ivars jj
       = Returned v) ->
  forall out, exists out',
    loop_outcome curve_fit model starting_guess nlabels fluxes ivars idxs out
    = Returned out'.
Proof.
  induction idxs as [|k rest IH]; intros H out; simpl.
  - eauto.
  - destruct (H k) as [v Ev]; [left; reflexivity|]. rewrite Ev. cbn [rbind].
    apply IH. intros jj Hjj. apply H. right. exact Hjj.
Qed.


(** The loop never calls the setter. *)
Lemma loop_prints_no_setter nlabels fluxes ivars idxs :
  existsb is_setter_call
    (loop_prints curve_fit model starting_guess nlabels fluxes ivars idxs)
  = false.
Proof.
  induction idxs as [|k rest IH]; simpl; [reflexivity|].
  rewrite existsb_app.
  assert (Hs : existsb is_setter_call
                 (star_prints curve_fit model starting_guess fluxes ivars k)
               = false).
  { unfold star_prints, fit_prints.
    destruct (prepare model fluxes ivars k) as [[[[? ?] ?] ?]|?];
      [|reflexivity].
    destruct (curve_fit _ _ _ _) as [?|e]; [reflexivity|].
    destruct (is_RuntimeError e); reflexivity. }
  rewrite Hs. simpl.
  destruct (star_values _ _ _ _ _ _ k); [exact IH | reflexivity].
Qed.

(** *** Well-shaped inputs *)

Lemma map_mult_1 (l : vector) : map (fun x => x * 1) l = l.
Proof.
  induction l as [|x t IH]; simpl; [reflexivity|].
  rewrite IH, Rmult_1_r. reflexivity.
Qed.

Lemma row_nth (a : matrix) (jj : nat) :
  (jj < length a)%nat -> row a jj = Returned (nth jj a []).
Proof.
  intros H. unfold row.
  destruct (nth_error a jj) as [r|] eqn:E.
  - rewrite (nth_error_nth _ _ _ E). reflexivity.
  - apply nth_error_None in E. lia.
Qed.

Lemma prepare_returned fluxes ivars jj :
  let flux := nth jj fluxes [] in
  let ivar := nth jj ivars [] in
  (jj < length fluxes)%nat -> (jj < length ivars)%nat ->
  length ivar = length flux ->
  length (Model.scatters model) = length flux ->
  length (Model.coeffs model) = length flux ->
  (forall r, In r (Model.coeffs model) -> r <> []) ->
  prepare model fluxes ivars jj
  = Returned (ivar,
              pivot_relative flux (Model.coeffs model),
              zip_with sigma_pixel ivar (Model.scatters model),
              without_offset (Model.coeffs model)).
Proof.
  intros flux ivar Hf Hi Hli Hls Hlc Hne. unfold prepare.
  rewrite (row_nth _ Hf), (row_nth _ Hi). cbn [rbind].
  fold flux. fold ivar.
  unfold column0.
  rewrite (rmap_total _ (hd 0))
    by (intros [|x r] Hr; [destruct (Hne [] Hr); reflexivity | reflexivity]).
  cbn [rbind]. unfold scalar_op at 1. rewrite map_mult_1.
  rewrite broadcast_same_length by (rewrite length_map; congruence).
  cbn [rbind].
  rewrite effective_sigma_returned by assumption. cbn [rbind].
  unfold delete_column0.
  rewrite (rmap_total _ (@tl R))
    by (intros [|x r] Hr; [destruct (Hne [] Hr); reflexivity | reflexivity]).
  reflexivity.
Qed.

Lemma sentinel_labels_eq :
  sentinel_labels starting_guess = repeat (-9999) (length starting_guess).
Proof.
  unfold sentinel_labels, scalar_op, zeros. rewrite map_repeat.
  f_equal. lra.
Qed.

Lemma sentinel_covs_eq :
  sentinel_covs starting_guess
  = repeat (repeat (-9999) (length starting_guess)) (length starting_guess).
Proof.
  unfold sentinel_covs, zeros2, scalar_op, zeros. rewrite !map_repeat.
  do 2 f_equal. lra.
Qed.

Lemma diagonal_square (m : matrix) (n : nat) :
  length m = n -> (forall r, In r m -> length r = n) ->
  length (diagonal m) = n.
Proof.
  intros Hm Hr. unfold diagonal. rewrite length_map, length_seq.
  unfold shape0, shape1. destruct m as [|r m]; [simpl in *; lia|].
  rewrite (Hr r) by (left; reflexivity). rewrite Hm. apply Nat.min_id.
Qed.

Lemma diagonal_repeat (x : R) (n : nat) :
  diagonal (repeat (repeat x n) n) = repeat x n.
Proof.
  assert (Hlen : length (diagonal (repeat (repeat x n) n)) = n).
  { apply diagonal_square; [apply repeat_length|].
    intros r Hr. apply repeat_spec in Hr. subst. apply repeat_length. }
  apply (nth_ext _ _ 0 0); [rewrite Hlen, repeat_length; reflexivity|].
  intros i Hi. rewrite Hlen in Hi. unfold diagonal.
  rewrite (nth_indep _ 0 (nth 0 (nth 0 (repeat (repeat x n) n) []) 0))
    by (rewrite length_map, length_seq; unfold diagonal in Hlen;
        rewrite length_map, length_seq in Hlen; lia).
  rewrite (map_nth (fun i => nth i (nth i (repeat (repeat x n) n) []) 0)).
  rewrite seq_nth
    by (unfold diagonal in Hlen; rewrite length_map, length_seq in Hlen; lia).
  simpl. rewrite (nth_repeat_lt _ _ Hi), !(nth_repeat_lt _ _ Hi). reflexivity.
Qed.

Lemma length_get_lvec (labels : vector) :
  length (_get_lvec labels) = lvec_length (length labels).
Proof.
  rewrite _get_lvec_eq, length_app, length_upper_products. reflexivity.
Qed.

Lemma fit_outcome_shape coeffs flux_piv sig (n : nat) :
  length starting_guess = n ->
  returns_or_fails n (curve_fit coeffs flux_piv starting_guess sig) ->
  exists labels covs,
    fit_outcome curve_fit starting_guess coeffs flux_piv sig
    = Returned (labels, covs)
    /\ length labels = n
    /\ length (diagonal covs) = n.
Proof.
  intros Hsg Hfit. unfold fit_outcome. unfold returns_or_fails in Hfit.
  destruct (curve_fit coeffs flux_piv starting_guess sig) as [[popt pcov]|e].
  - destruct Hfit as (H1 & H2 & H3). exists popt, pcov.
    split; [reflexivity|]. split; [exact H1|].
    apply diagonal_square; assumption.
  - rewrite Hfit. eexists _, _. split; [reflexivity|].
    rewrite sentinel_labels_eq, sentinel_covs_eq, diagonal_repeat.
    rewrite !repeat_length. auto.
Qed.

(** What lines 87-93 hand to the fit of a star of a well-shaped dataset. *)
Lemma prepare_well_shaped (d : Dataset.t) (npixels nlabels jj : nat) :
  well_shaped model d starting_guess npixels nlabels ->
  (jj < length (Dataset.test_flux d))%nat ->
  prepare model (Dataset.test_flux d) (Dataset.test_ivar d) jj
  = Returned (nth jj (Dataset.test_ivar d) [],
              pivot_relative (nth jj (Dataset.test_flux d) [])
                             (Model.coeffs model),
              zip_with sigma_pixel (nth jj (Dataset.test_ivar d) [])
                       (Model.scatters model),
              without_offset (Model.coeffs model)).
Proof.
  intros [Hnp Hsg Hpiv Hco Hrow Hsc Hiv Hfr Hir] Hjj.
  assert (Hlf : length (nth jj (Dataset.test_flux d) []) = npixels)
    by (apply Hfr, nth_In; exact Hjj).
  assert (Hli : length (nth jj (Dataset.test_ivar d) []) = npixels)
    by (apply Hir, nth_In; rewrite Hiv; exact Hjj).
  apply prepare_returned; try congruence; try lia.
  intros r Hr E. specialize (Hrow r Hr). subst r. discriminate.
Qed.

(** The values of one star of a well-shaped dataset. *)
Lemma star_values_returned (d : Dataset.t) (npixels nlabels jj : nat) :
  well_shaped model d starting_guess npixels nlabels ->
  (jj < length (Dataset.test_flux d))%nat ->
  returns_or_fails nlabels (fit_of_star curve_fit model starting_guess d jj) ->
  let flux := nth jj (Dataset.test_flux d) [] in
  let ivar := nth jj (Dataset.test_ivar d) [] in
  let flux_piv := pivot_relative flux (Model.coeffs model) in
  let sig := zip_with sigma_pixel ivar (Model.scatters model) in
  let coeffs := without_offset (Model.coeffs model) in
  exists labels covs,
    fit_outcome curve_fit starting_guess coeffs flux_piv sig
    = Returned (labels, covs)
    /\ length labels = nlabels
    /\ length (diagonal covs) = nlabels
    /\ star_values curve_fit model starting_guess nlabels
         (Dataset.test_flux d) (Dataset.test_ivar d) jj
       = Returned
           (zip_with Rplus labels (Model.pivots model),
            diagonal covs,
            pixel_sum
              (fun i =>
                 chi2_pixel (nth i flux_piv 0
                             - dot1 (nth i coeffs []) (_get_lvec labels))
                            (nth i ivar 0)
                            (nth i (Model.scatters model) 0))
              npixels).
Proof.
  intros WS Hjj Hfit flux ivar flux_piv sig coeffs.
  pose proof (prepare_well_shaped WS Hjj) as Hprep.
  fold flux ivar flux_piv sig coeffs in Hprep.
  destruct WS as [Hnp Hsg Hpiv Hco Hrow Hsc Hiv Hfr Hir].
  assert (Hlf : length flux = npixels)
    by (apply Hfr, nth_In; exact Hjj).
  assert (Hli : length ivar = npixels)
    by (apply Hir, nth_In; rewrite Hiv; exact Hjj).
  destruct (@fit_outcome_shape coeffs flux_piv sig nlabels Hsg Hfit)
    as (labels & covs & Efit & Hll & Hld).
  exists labels, covs. split; [exact Efit|]. split; [exact Hll|].
  split; [exact Hld|].
  unfold star_values. rewrite Hprep. cbn [rbind]. rewrite Efit. cbn [rbind].
  assert (Hfp : length flux_piv = npixels).
  { unfold flux_piv, pivot_relative.
    rewrite length_zip_with; [exact Hlf | rewrite length_map; congruence]. }
  destruct (@chi2_terms_returned flux_piv coeffs labels ivar
              (Model.scatters model))
    as (chi2 & Echi & Hlc & Hnth).
  - unfold coeffs, without_offset. rewrite length_map. congruence.
  - congruence.
  - congruence.
  - intros r Hr. unfold coeffs, without_offset in Hr.
    apply in_map_iff in Hr. destruct Hr as (r0 & <- & Hr0).
    specialize (Hrow r0 Hr0). rewrite length_get_lvec, Hll.
    destruct r0; simpl in *; [discriminate | congruence].
  - rewrite Echi. cbn [rbind].
    rewrite broadcast_same_length by congruence. cbn [rbind].
    rewrite broadcast_to_same
      by (rewrite length_zip_with; congruence).
    cbn [rbind]. rewrite (@broadcast_to_same _ _ Hld). cbn [rbind].
    do 2 f_equal. rewrite sum_pixel_sum, Hlc, Hfp.
    apply pixel_sum_ext. intros i Hi. apply Hnth. lia.
Qed.

(** On well-shaped input, with an optimizer that for every star returns
    or raises a RuntimeError, lines 82-109 return, having called the
    setter once, and the three arrays hold the values of every star. *)
Lemma after_allocation_returns (w : world) (npixels nlabels : nat) :
  well_shaped model (dataset w) starting_guess npixels nlabels ->
  fits_return_or_fail curve_fit model starting_guess (dataset w) nlabels ->
  let d := dataset w in
  let nstars := length (Dataset.test_flux d) in
  exists labels_all errs_all chisq_all,
    infer_after_allocation curve_fit model starting_guess nlabels
      (Dataset.test_flux d) (Dataset.test_ivar d) (zeros2 nstars nlabels) w
    = (Returned (errs_all, chisq_all),
       {| dataset := Dataset.set_test_label_vals labels_all d;
          events :=
            events w
            ++ (PrintGuess starting_guess
                :: loop_prints curve_fit model starting_guess nlabels
                     (Dataset.test_flux d) (Dataset.test_ivar d)
                     (seq 0 nstars))
            ++ [SetTestLabelVals labels_all] |})
    /\ length labels_all = nstars
    /\ length errs_all = nstars
    /\ length chisq_all = nstars
    /\ forall jj, (jj < nstars)%nat ->
         star_values curve_fit model starting_guess nlabels
           (Dataset.test_flux d) (Dataset.test_ivar d) jj
         = Returned (nth jj labels_all [], nth jj errs_all [],
                     nth jj chisq_all 0).
Proof.
  intros WS Hfit d nstars. subst d. rewrite infer_after_allocation_run.
  cbv zeta. unfold shape0. fold nstars.
  destruct (@loop_outcome_total nlabels (Dataset.test_flux (dataset w))
              (Dataset.test_ivar (dataset w)) (seq 0 nstars))
    with (out := (zeros2 nstars nlabels, zeros2 nstars nlabels, zeros nstars))
    as [[[la ea] ca] Eloop].
  { intros jj Hjj. apply in_seq in Hjj.
    destruct (@star_values_returned (dataset w) npixels nlabels jj WS)
      as (labels & covs & _ & _ & _ & E);
      [unfold nstars in Hjj; lia | apply Hfit; unfold nstars in Hjj; lia |].
    eexists. exact E. }
  rewrite Eloop.
  destruct (loop_outcome_returned _ _ _ _ _ _ (seq_NoDup nstars 0) Eloop)
    as [(L1 & L2 & L3) [Hin _]].
  unfold zeros2, zeros in L1, L2, L3. rewrite repeat_length in L1, L2, L3.
  exists la, ea, ca. split; [reflexivity|].
  split; [exact L1|]. split; [exact L2|]. split; [exact L3|].
  intros jj Hjj.
  destruct (Hin jj) as (lr & er & c & E & N1 & N2 & N3);
    [apply in_seq; lia|].
  unfold zeros2, zeros in N1, N2, N3. rewrite repeat_length in N1, N2, N3.
  rewrite E, (N1 Hjj), (N2 Hjj), (N3 Hjj). reflexivity.
Qed.

Lemma fit_outcome_returned coeffs flux_piv sig labels covs :
  curve_fit coeffs flux_piv starting_guess sig = Returned (labels, covs) ->
  fit_outcome curve_fit starting_guess coeffs flux_piv sig
  = Returned (labels, covs).
Proof. intros H. unfold fit_outcome. rewrite H. reflexivity. Qed.

Lemma fit_outcome_sentinel coeffs flux_piv sig e :
  curve_fit coeffs flux_piv starting_guess sig = Raised e ->
  is_RuntimeError e = true ->
  fit_outcome curve_fit starting_guess coeffs flux_piv sig
  = Returned (repeat (-9999) (length starting_guess),
              repeat (repeat (-9999) (length starting_guess))
                     (length starting_guess)).
Proof.
  intros H He. unfold fit_outcome. rewrite H, He.
  rewrite sentinel_labels_eq, sentinel_covs_eq. reflexivity.
Qed.


(** Lines 82-109 on well-shaped input: what they return and write, star
    by star. *)
Lemma after_allocation_spec (w : world) (npixels nlabels : nat) :
  well_shaped model (dataset w) starting_guess npixels nlabels ->
  fits_return_or_fail curve_fit model starting_guess (dataset w) nlabels ->
  let d := dataset w in
  let nstars := length (Dataset.test_flux d) in
  exists labels_all errs_all chisq_all prints,
    infer_after_allocation curve_fit model starting_guess nlabels
      (Dataset.test_flux d) (Dataset.test_ivar d) (zeros2 nstars nlabels) w
    = (Returned (errs_all, chisq_all),
       {| dataset := Dataset.set_test_label_vals labels_all d;
          events := events w ++ prints ++ [SetTestLabelVals labels_all] |})
    /\ existsb is_setter_call prints = false
    /\ length labels_all = nstars
    /\ length errs_all = nstars
    /\ length chisq_all = nstars
    /\ forall jj, (jj < nstars)%nat ->
         let flux := nth jj (Dataset.test_flux d) [] in
         let ivar := nth jj (Dataset.test_ivar d) [] in
         let flux_piv := pivot_relative flux (Model.coeffs model) in
         let sig := zip_with sigma_pixel ivar (Model.scatters model) in
         let coeffs := without_offset (Model.coeffs model) in
         exists labels covs,
           fit_outcome curve_fit starting_guess coeffs flux_piv sig
           = Returned (labels, covs)
           /\ length labels = nlabels
           /\ nth jj labels_all [] = zip_with Rplus labels (Model.pivots model)
           /\ nth jj errs_all [] = diagonal covs
           /\ nth jj chisq_all 0
              = pixel_sum
                  (fun i =>
                     chi2_pixel (nth i flux_piv 0
                                 - dot1 (nth i coeffs []) (_get_lvec labels))
                                (nth i ivar 0)
                                (nth i (Model.scatters model) 0))
                  npixels.
Proof.
  intros WS Hfit d nstars.
  destruct (after_allocation_returns w WS Hfit)
    as (la & ea & ca & Erun & L1 & L2 & L3 & Hstars).
  exists la, ea, ca. eexists. split; [exact Erun|].
  split.
  { cbn [existsb is_setter_call orb]. apply loop_prints_no_setter. }
  repeat (split; [assumption|]).
  intros jj Hjj.
  destruct (@star_values_returned d npixels nlabels jj WS Hjj (Hfit jj Hjj))
    as (labels & covs & Efit & Hll & _ & Eval).
  exists labels, covs. specialize (Hstars jj Hjj). fold d in Hstars.
  rewrite Eval in Hstars. inversion Hstars.
  repeat split; assumption || reflexivity.
Qed.

End Runs.

(** * The properties of the specification *)

(** C1. When the optimizer raises a RuntimeError (its failure to
    converge, or a subclass of it) in the fit of a star, the fit of lines
    94-102 raises nothing: it returns labels equal to -9999.0 in every
    entry, as many as the starting guess has, and a covariance equal to
    -9999.0 in every entry, square of that size, the size of the
    covariance of a successful fit; one line is printed and the dataset is
    untouched. *)
Theorem fit_failure_returns_sentinel
    (curve_fit : matrix -> vector -> vector -> vector
                 -> result (vector * matrix))
    (starting_guess : vector) (coeffs : matrix) (flux_piv sig : vector)
    (e : exn) (w : world) :
  curve_fit coeffs flux_piv starting_guess sig = Raised e ->
  is_RuntimeError e = true ->
  let n := length starting_guess in
  fit_or_sentinel curve_fit starting_guess coeffs flux_piv sig w
  = (Returned (repeat (-9999) n, repeat (repeat (-9999) n) n),
     {| dataset := dataset w;
        events := events w ++ [Print "Error - curve_fit failed"] |}).
Proof.
  intros H He n. rewrite fit_or_sentinel_run.
  rewrite (fit_outcome_sentinel _ _ _ _ _ H He).
  unfold fit_prints. rewrite H, He. reflexivity.
Qed.

Lemma fit_failure_returns_sentinel_witness :
  Example.never_converges [[2; 3]; [1; 1]] [0; 2] Example.guess [1; 200]
  = Raised RuntimeError
  /\ is_RuntimeError RuntimeError = true
  /\ fit_or_sentinel Example.never_converges Example.guess
       [[2; 3]; [1; 1]] [0; 2] [1; 200] Example.start
     = (Returned ([-9999], [[-9999]]),
        {| dataset := Example.data;
           events := [Print "Error - curve_fit failed"] |}).
Proof.
  split; [reflexivity|]. split; [reflexivity|].
  apply (fit_failure_returns_sentinel Example.never_converges Example.guess
           [[2; 3]; [1; 1]] [0; 2] [1; 200] (e := RuntimeError));
    reflexivity.
Defined.

(** C5. For every pixel, the effective standard deviation handed to the
    fit as its weight is the constant [LARGE = 200.0] when the pixel's
    inverse variance is zero, whatever the scatter, and
    [sqrt(1/ivar + scatter^2)] otherwise. *)
Theorem effective_sigma_per_pixel (flux ivar scatters : vector) :
  length ivar = length flux ->
  length scatters = length flux ->
  exists sig,
    effective_sigma flux ivar scatters = Returned sig
    /\ length sig = length flux
    /\ LARGE = 200
    /\ forall i, (i < length flux)%nat ->
         (nth i ivar 0 = 0 -> nth i sig 0 = LARGE)
         /\ (nth i ivar 0 <> 0 ->
             nth i sig 0 = sqrt (1 / nth i ivar 0 + nth i scatters 0 ^ 2)).
Proof.
  intros Hi Hs. exists (zip_with sigma_pixel ivar scatters).
  split; [apply effective_sigma_returned; assumption|].
  split; [rewrite length_zip_with; congruence|].
  split; [reflexivity|].
  intros i Hlt.
  rewrite (nth_zip_with sigma_pixel ivar scatters 0 0 0)
    by (congruence || lia).
  unfold sigma_pixel, Reqb.
  destruct (Req_dec_T (nth i ivar 0) 0) as [E|N]; split; intros H.
  - apply Rmult_1_l.
  - contradiction.
  - contradiction.
  - reflexivity.
Qed.

Lemma effective_sigma_per_pixel_witness :
  length [0; 4] = length [1; 2]
  /\ length [3; 0] = length [1; 2]
  /\ exists sig,
       effective_sigma [1; 2] [0; 4] [3; 0] = Returned sig
       /\ length sig = 2%nat
       /\ LARGE = 200
       /\ forall i, (i < 2)%nat ->
            (nth i [0; 4] 0 = 0 -> nth i sig 0 = LARGE)
            /\ (nth i [0; 4] 0 <> 0 ->
                nth i sig 0 = sqrt (1 / nth i [0; 4] 0 + nth i [3; 0] 0 ^ 2)).
Proof.
  split; [reflexivity|]. split; [reflexivity|].
  apply (effective_sigma_per_pixel [1; 2] [0; 4] [3; 0]); reflexivity.
Defined.

(** The value 200 is not reserved for masked pixels: a pixel of inverse
    variance 1/40000 and no scatter has it too. *)
Remark sigma_200_unmasked :
  sigma_pixel (1 / 40000) 0 = LARGE /\ 1 / 40000 <> 0.
Proof.
  split; [|lra]. unfold sigma_pixel, Reqb, LARGE.
  destruct (Req_dec_T (1 / 40000) 0) as [E|_]; [lra|].
  replace (1 / (1 / 40000) + 0 ^ 2) with (200 * 200) by (field; lra).
  apply sqrt_square. lra.
Qed.

(** C10. For every star, on arrays of one length, a pixel whose inverse
    variance is zero contributes exactly zero to the chi-square, whatever
    its residual and its scatter; the chi-square that is summed is the sum
    over the other pixels. *)
Theorem zero_ivar_pixel_contributes_nothing
    (flux_piv : vector) (coeffs : matrix) (labels ivar scatters : vector) :
  length coeffs = length flux_piv ->
  length ivar = length flux_piv ->
  length scatters = length flux_piv ->
  (forall r, In r coeffs -> length r = length (_get_lvec labels)) ->
  exists chi2,
    chi2_terms flux_piv coeffs labels ivar scatters = Returned chi2
    /\ length chi2 = length flux_piv
    /\ (forall i, (i < length flux_piv)%nat ->
          nth i ivar 0 = 0 -> nth i chi2 0 = 0)
    /\ sum chi2
       = pixel_sum
           (fun i =>
              if Reqb (nth i ivar 0) 0 then 0
              else (nth i flux_piv 0
                    - dot1 (nth i coeffs []) (_get_lvec labels)) ^ 2
                   * nth i ivar 0
                   / (1 + nth i ivar 0 * nth i scatters 0 ^ 2))
           (length flux_piv).
Proof.
  intros Hc Hi Hs Hrows.
  destruct (chi2_terms_returned flux_piv coeffs labels ivar scatters
              Hc Hi Hs Hrows) as (chi2 & E & Hl & Hnth).
  exists chi2. split; [exact E|]. split; [exact Hl|]. split.
  - intros i Hlt Hz. rewrite (Hnth i Hlt), Hz. apply chi2_pixel_zero_ivar.
  - rewrite sum_pixel_sum, Hl. apply pixel_sum_ext. intros i Hlt.
    rewrite (Hnth i Hlt). unfold Reqb.
    destruct (Req_dec_T (nth i ivar 0) 0) as [Hz|_]; [|reflexivity].
    rewrite Hz. apply chi2_pixel_zero_ivar.
Qed.

Lemma zero_ivar_pixel_contributes_nothing_witness :
  exists chi2,
    chi2_terms [1; 2] [[1; 0]; [0; 1]] [3] [0; 1] [0; 0] = Returned chi2
    /\ length chi2 = 2%nat
    /\ (forall i, (i < 2)%nat -> nth i [0; 1] 0 = 0 -> nth i chi2 0 = 0)
    /\ sum chi2
       = pixel_sum
           (fun i =>
              if Reqb (nth i [0; 1] 0) 0 then 0
              else (nth i [1; 2] 0
                    - dot1 (nth i [[1; 0]; [0; 1]] []) (_get_lvec [3])) ^ 2
                   * nth i [0; 1] 0
                   / (1 + nth i [0; 1] 0 * nth i [0; 0] 0 ^ 2))
           2.
Proof.
  apply (zero_ivar_pixel_contributes_nothing
           [1; 2] [[1; 0]; [0; 1]] [3] [0; 1] [0; 0]);
    try reflexivity.
  intros r [<-|[<-|[]]]; reflexivity.
Defined.

(** The example dataset is well shaped, and its optimizers answer as the
    theorems below assume. *)
Lemma example_well_shaped :
  well_shaped Example.model Example.data Example.guess 2 1.
Proof.
  constructor; try reflexivity.
  - simpl. lia.
  - intros r [<-|[<-|[]]]; reflexivity.
  - intros r [<-|[<-|[]]]; reflexivity.
  - intros r [<-|[<-|[]]]; reflexivity.
Qed.

Lemma never_converges_fit (model : Model.t) (guess : vector) (d : Dataset.t)
    (nlabels : nat) :
  fits_return_or_fail Example.never_converges model guess d nlabels.
Proof. intros jj Hjj. reflexivity. Qed.

Lemma returns_guess_fit (model : Model.t) (guess : vector) (d : Dataset.t) :
  fits_return_or_fail Example.returns_guess model guess d (length guess).
Proof.
  intros jj Hjj. unfold fit_of_star, Example.returns_guess, returns_or_fails.
  unfold outer.
  split; [reflexivity|]. split; [apply length_map|].
  intros r Hr. apply in_map_iff in Hr. destruct Hr as (x & <- & _).
  apply length_map.
Qed.





Lemma zip_with_repeat (x : R) (l : vector) :
  zip_with Rplus (repeat x (length l)) l = map (fun p => x + p) l.
Proof. induction l as [|y t IH]; simpl; [reflexivity|]. rewrite IH. reflexivity. Qed.

(** C2.  What lines 82-109 write for a star whose fit failed.  For every
    well-shaped dataset whose stars' fits each succeed or fail with a
    RuntimeError, these lines return; the label table they write onto the
    dataset has one row per star and replaces whatever table was there;
    the row of a failed star holds [-9999 + pivot] in every entry, not
    -9999, because line 105 adds the pivots to the sentinel labels as to
    any labels, and the row of a successful star its fitted labels plus
    the pivots; the returned row of covariance diagonals is -9999 in every
    entry for a failed star, and the diagonal of the optimizer's
    covariance for a successful one.  (The driver gets to these lines only
    when the allocation of lines 80-81 has returned: see C7.) *)
Theorem failed_rows_hold_shifted_sentinel
    (curve_fit : matrix -> vector -> vector -> vector
                 -> result (vector * matrix))
    (model : Model.t) (starting_guess : vector) (w : world)
    (npixels nlabels : nat) :
  well_shaped model (dataset w) starting_guess npixels nlabels ->
  fits_return_or_fail curve_fit model starting_guess (dataset w) nlabels ->
  let d := dataset w in
  let nstars := length (Dataset.test_flux d) in
  exists labels_all errs_all chisq_all w',
    infer_after_allocation curve_fit model starting_guess nlabels
      (Dataset.test_flux d) (Dataset.test_ivar d) (zeros2 nstars nlabels) w
    = (Returned (errs_all, chisq_all), w')
    /\ Dataset.test_label_vals (dataset w') = Some labels_all
    /\ length labels_all = nstars
    /\ length errs_all = nstars
    /\ length chisq_all = nstars
    /\ forall jj, (jj < nstars)%nat ->
         match fit_of_star curve_fit model starting_guess d jj with
         | Raised _ =>
             nth jj labels_all []
             = map (fun p => -9999 + p) (Model.pivots model)
             /\ nth jj errs_all [] = repeat (-9999) nlabels
         | Returned (labels, covs) =>
             nth jj labels_all [] = zip_with Rplus labels (Model.pivots model)
             /\ nth jj errs_all [] = diagonal covs
         end.
Proof.
  intros WS Hfit d nstars. subst d nstars.
  destruct (after_allocation_spec w WS Hfit)
    as (la & ea & ca & prints & Erun & _ & L1 & L2 & L3 & Hstars).
  exists la, ea, ca. eexists. split; [exact Erun|]. split; [reflexivity|].
  repeat (split; [assumption|]).
  intros jj Hjj.
  destruct (Hstars jj Hjj) as (labels & covs & Efit & _ & Hl & He & _).
  pose proof (Hfit jj Hjj) as Hcase. unfold fit_of_star in *.
  pose proof (ws_guess WS) as Hsg. pose proof (ws_pivots WS) as Hpiv.
  destruct (curve_fit _ _ starting_guess _) as [[popt pcov]|e] eqn:Ecf.
  - rewrite (fit_outcome_returned _ _ _ _ _ Ecf) in Efit.
    inversion Efit; subst. split; assumption.
  - rewrite (fit_outcome_sentinel _ _ _ _ _ Ecf Hcase) in Efit.
    inversion Efit; subst labels covs.
    rewrite Hl, He, diagonal_repeat, Hsg.
    rewrite <- Hpiv at 1. rewrite zip_with_repeat. split; reflexivity.
Qed.

Lemma failed_rows_hold_shifted_sentinel_witness :
  well_shaped Example.model (dataset Example.start) Example.guess 2 1
  /\ fits_return_or_fail Example.never_converges Example.model Example.guess
       (dataset Example.start) 1
  /\ exists labels_all errs_all chisq_all w',
       infer_after_allocation Example.never_converges Example.model
         Example.guess 1 [[1; 2]; [3; 4]] [[1; 0]; [1; 1]] (zeros2 2 1)
         Example.start
       = (Returned (errs_all, chisq_all), w')
       /\ Dataset.test_label_vals (dataset w') = Some labels_all
       /\ nth 0 labels_all [] = [-9999 + 5]
       /\ ~ In (-9999) (nth 0 labels_all [])
       /\ nth 0 errs_all [] = [-9999].
Proof.
  split; [exact example_well_shaped|].
  split; [apply never_converges_fit|].
  destruct (failed_rows_hold_shifted_sentinel Example.start
              example_well_shaped
              (never_converges_fit Example.model Example.guess
                 (dataset Example.start) 1))
    as (labels_all & errs_all & chisq_all & w' & Erun & Etab & _ & _ & _ & H).
  exists labels_all, errs_all, chisq_all, w'.
  split; [exact Erun|]. split; [exact Etab|].
  destruct (H 0%nat (Nat.lt_0_succ 1)) as [Hl He].
  split; [exact Hl|]. split; [|exact He].
  rewrite Hl. intros [E|[]]. lra.
Defined.

(** C7.  The driver raises on every input, whatever its shapes.  The last
    dimension of the array allocated at lines 80-81 is written
    [coeffs_all.shape[1]-1.], a float, so [np.zeros] raises TypeError
    after the first line was printed and before anything is done for a
    star: the starting guess is not printed, no fit is made, the dataset
    is left as it was.  It is not only malformed input that makes the
    driver raise: well-shaped input does, too. *)
Theorem driver_raises_on_every_input
    (curve_fit : matrix -> vector -> vector -> vector
                 -> result (vector * matrix))
    (model : Model.t) (starting_guess : vector) (w : world) :
  _infer_labels curve_fit model starting_guess w
  = (Raised TypeError,
     {| dataset := dataset w;
        events := events w ++ [Print "Inferring Labels"] |}).
Proof. apply _infer_labels_run. Qed.

Lemma driver_raises_on_every_input_witness :
  well_shaped Example.model (dataset Example.start) Example.guess 2 1
  /\ fits_return_or_fail Example.returns_guess Example.model Example.guess
       (dataset Example.start) 1
  /\ _infer_labels Example.returns_guess Example.model Example.guess
       Example.start
     = (Raised TypeError,
        {| dataset := Example.data;
           events := [Print "Inferring Labels"] |}).
Proof.
  split; [exact example_well_shaped|].
  split; [exact (returns_guess_fit Example.model Example.guess
                   (dataset Example.start))|].
  exact (driver_raises_on_every_input Example.returns_guess Example.model
           Example.guess Example.start).
Defined.

Lemma broadcast_to_length (n : nat) (v r : vector) :
  broadcast_to n v = Returned r -> length r = n.
Proof.
  unfold broadcast_to. destruct (length v =? n)%nat eqn:E.
  - intros H. inversion H; subst. apply Nat.eqb_eq. exact E.
  - destruct v as [|x [|y v]]; intros H; inversion H.
    apply repeat_length.
Qed.

Lemma star_values_row_length curve_fit model starting_guess nlabels
    fluxes ivars jj lr er c :
  star_values curve_fit model starting_guess nlabels fluxes ivars jj
  = Returned (lr, er, c) ->
  length lr = nlabels /\ length er = nlabels.
Proof.
  unfold star_values.
  destruct (prepare model fluxes ivars jj)
    as [[[[ivar flux_piv] sig] coeffs]|?]; [|discriminate]. cbn [rbind].
  destruct (fit_outcome _ _ _ _ _) as [[labels covs]|?]; [|discriminate].
  cbn [rbind].
  destruct (chi2_terms _ _ _ _ _) as [chi2|?]; [|discriminate]. cbn [rbind].
  destruct (broadcast Rplus _ _) as [fl|?]; [|discriminate]. cbn [rbind].
  destruct (broadcast_to nlabels fl) as [lr'|?] eqn:E1; [|discriminate].
  cbn [rbind].
  destruct (broadcast_to nlabels (diagonal covs)) as [er'|?] eqn:E2;
    [|discriminate].
  cbn [rbind]. intros H. inversion H; subst.
  split; eapply broadcast_to_length; eassumption.
Qed.

(** C8.  The driver never calls the setter of the label values.  Whatever
    its input, it raises TypeError at lines 80-81, before the loop, having
    printed one line and left every field of the dataset as it was: the
    call of line 108 is not reached.  Lines 82-109 themselves are as the
    specification describes them: the loop leaves the dataset as it found
    it and does not call the setter; when these lines return, they have
    called the setter exactly once, as the last thing they did, with a
    matrix of [nstars] rows of [nlabels] entries, and the dataset differs
    from the initial one in its label values only; when they raise, they
    have not called it. *)
Theorem driver_never_calls_setter
    (curve_fit : matrix -> vector -> vector -> vector
                 -> result (vector * matrix))
    (model : Model.t) (starting_guess : vector) (w : world) :
  (exists w',
     _infer_labels curve_fit model starting_guess w = (Raised TypeError, w')
     /\ dataset w' = dataset w
     /\ exists prints,
          events w' = events w ++ prints
          /\ existsb is_setter_call prints = false)
  /\ forall (nlabels : nat) (fluxes ivars : matrix),
       let nstars := shape0 fluxes in
       (forall out w1,
          let after :=
            snd (for_each (seq 0 nstars)
                   (infer_star curve_fit model starting_guess nlabels
                               fluxes ivars)
                   out w1) in
          dataset after = dataset w1
          /\ exists prints,
               events after = events w1 ++ prints
               /\ existsb is_setter_call prints = false)
       /\ match infer_after_allocation curve_fit model starting_guess
                  nlabels fluxes ivars (zeros2 nstars nlabels) w with
          | (Returned (errs_all, chisq_all), w') =>
              exists labels_all prints,
                events w'
                = events w ++ prints ++ [SetTestLabelVals labels_all]
                /\ existsb is_setter_call prints = false
                /\ dataset w'
                   = Dataset.set_test_label_vals labels_all (dataset w)
                /\ length labels_all = nstars
                /\ (forall r, In r labels_all -> length r = nlabels)
                /\ Dataset.tr_label (dataset w')
                   = Dataset.tr_label (dataset w)
                /\ Dataset.test_flux (dataset w')
                   = Dataset.test_flux (dataset w)
                /\ Dataset.test_ivar (dataset w')
                   = Dataset.test_ivar (dataset w)
          | (Raised _, w') =>
              exists prints,
                events w' = events w ++ prints
                /\ existsb is_setter_call prints = false
                /\ dataset w' = dataset w
          end.
Proof.
  split.
  { rewrite _infer_labels_run. eexists. split; [reflexivity|].
    split; [reflexivity|]. eexists. split; reflexivity. }
  intros nlabels fluxes ivars nstars. split.
  - intros out w1 after. subst after. rewrite for_each_run. cbn [snd].
    split; [reflexivity|]. eexists. split; [reflexivity|].
    apply loop_prints_no_setter.
  - rewrite infer_after_allocation_run. cbv zeta. fold nstars.
    destruct (loop_outcome _ _ _ _ _ _ _ _) as [[[la ea] ca]|e] eqn:Eloop.
    + pose proof Eloop as Hl.
      eapply loop_outcome_returned in Hl; [|apply seq_NoDup].
      destruct Hl as [(L1 & _ & _) [Hin _]].
      unfold zeros2 in L1. rewrite repeat_length in L1.
      eexists la, _. split; [reflexivity|]. split.
      { cbn [existsb is_setter_call orb]. apply loop_prints_no_setter. }
      split; [reflexivity|]. split; [exact L1|]. split.
      { intros r Hr. apply (In_nth _ _ []) in Hr.
        destruct Hr as (jj & Hjj & <-).
        destruct (Hin jj) as (lr & er & c & E & N1 & _);
          [apply in_seq; lia|].
        unfold zeros2 in N1. rewrite repeat_length in N1.
        rewrite N1 by lia.
        apply (star_values_row_length _ _ _ _ _ _ _ E). }
      repeat split; reflexivity.
    + eexists. split; [reflexivity|]. split; [|reflexivity].
      cbn [existsb is_setter_call orb]. apply loop_prints_no_setter.
Qed.




Lemma get_lvec_quadratic_expansion_witness :
  length (_get_lvec [2; 3]) = 5%nat
  /\ firstn 2 (_get_lvec [2; 3]) = [2; 3]
  /\ _get_lvec [2; 3] = [2; 3; 2 * 2; 2 * 3; 3 * 3].
Proof.
  destruct (get_lvec_quadratic_expansion [2; 3]) as (H1 & H2 & _ & _ & H5).
  split; [exact H1|]. split; [exact H2 | exact (H5 2 3)].
Defined.

Lemma driver_never_calls_setter_witness :
  (exists w',
     _infer_labels Example.never_converges Example.model Example.guess
                   Example.start
     = (Raised TypeError, w')
     /\ dataset w' = Example.data
     /\ exists prints,
          events w' = prints /\ existsb is_setter_call prints = false)
  /\ exists errs_all chisq_all w',
       infer_after_allocation Example.never_converges Example.model
         Example.guess 1 [[1; 2]; [3; 4]] [[1; 0]; [1; 1]] (zeros2 2 1)
         Example.start
       = (Returned (errs_all, chisq_all), w')
       /\ exists labels_all prints,
            events w' = prints ++ [SetTestLabelVals labels_all]
            /\ existsb is_setter_call prints = false
            /\ dataset w' = Dataset.set_test_label_vals labels_all Example.data
            /\ length labels_all = 2%nat.
Proof.
  destruct (driver_never_calls_setter Example.never_converges
              Example.model Example.guess Example.start) as [H1 H2].
  split; [exact H1|].
  destruct (H2 1%nat [[1; 2]; [3; 4]] [[1; 0]; [1; 1]]) as [_ H].
  destruct (after_allocation_spec Example.start example_well_shaped
              (never_converges_fit Example.model Example.guess
                 (dataset Example.start) 1))
    as (la & ea & ca & prints & Erun & _).
  cbv zeta in H.
  change (shape0 [[1; 2]; [3; 4]]) with 2%nat in H.
  change (infer_after_allocation Example.never_converges Example.model
            Example.guess 1 [[1; 2]; [3; 4]] [[1; 0]; [1; 1]] (zeros2 2 1)
            Example.start)
    with (infer_after_allocation Example.never_converges Example.model
            Example.guess 1 (Dataset.test_flux (dataset Example.start))
            (Dataset.test_ivar (dataset Example.start))
            (zeros2 (length (Dataset.test_flux (dataset Example.start))) 1)
            Example.start) in H |- *.
  rewrite Erun in H.
  destruct H as (labels_all & prints' & Hev & Hno & Hds & Hlen & _).
  exists ea, ca. eexists. split; [exact Erun|].
  exists labels_all, prints'.
  split; [exact Hev|]. split; [exact Hno|]. split; [exact Hds | exact Hlen].
Defined.

(** * Further properties of the inference code *)

(** ** [_func] and the per-pixel quantities *)

Lemma upper_products_zero (n : nat) :
  upper_products (repeat 0 n) = repeat 0 (length (upper_products (repeat 0 n))).
Proof.
  induction n as [|n IH]; [reflexivity|].
  cbn [repeat upper_products]. rewrite length_app, length_map.
  rewrite repeat_app. f_equal.
  - change (0 :: repeat 0 n) with (repeat 0 (S n)).
    rewrite map_repeat, repeat_length. f_equal. ring.
  - exact IH.
Qed.

Lemma dot1_zero_r (r : vector) (k : nat) : dot1 r (repeat 0 k) = 0.
Proof.
  revert k. induction r as [|x r IH]; intros [|k]; simpl; try reflexivity.
  rewrite IH. ring.
Qed.

(** X2. At labels that are all zero (a star at the pivot) the label vector
    is zero, so [_func] predicts 0 at every pixel: the baseline spectrum is
    carried by the offset column alone. *)
Theorem func_at_pivot_is_zero (coeffs : matrix) (nlabels : nat) :
  (forall r, In r coeffs -> length r = lvec_length nlabels) ->
  _get_lvec (repeat 0 nlabels) = repeat 0 (lvec_length nlabels)
  /\ _func coeffs (repeat 0 nlabels) = Returned (repeat 0 (length coeffs)).
Proof.
  intros Hrows.
  assert (E : _get_lvec (repeat 0 nlabels) = repeat 0 (lvec_length nlabels)).
  { rewrite _get_lvec_eq, upper_products_zero, <- repeat_app.
    f_equal. rewrite length_upper_products, repeat_length. reflexivity. }
  split; [exact E|].
  rewrite _func_returned
    by (intros r Hr; rewrite length_get_lvec, repeat_length; auto).
  f_equal. rewrite E.
  induction coeffs as [|r m IH]; [reflexivity|].
  cbn [map length repeat]. rewrite dot1_zero_r. f_equal.
  apply IH. intros r' Hr'. apply Hrows. right. exact Hr'.
Qed.

Lemma func_at_pivot_is_zero_witness :
  _get_lvec (repeat 0 2) = repeat 0 5
  /\ _func [[1; 2; 3; 4; 5]; [6; 7; 8; 9; 10]] (repeat 0 2)
     = Returned [0; 0].
Proof.
  apply (func_at_pivot_is_zero [[1; 2; 3; 4; 5]; [6; 7; 8; 9; 10]] 2).
  intros r [<-|[<-|[]]]; reflexivity.
Defined.

(** X3. [effective_sigma] needs the inverse variances and the scatters to
    have the length of the flux: when the scatters and the inverse
    variances differ in length, or the inverse variances and the flux do,
    it raises IndexError. *)
Theorem effective_sigma_length_mismatch (flux ivar scatters : vector) :
  length scatters <> length ivar \/ length ivar <> length flux ->
  effective_sigma flux ivar scatters = Raised IndexError.
Proof.
  intros H. unfold effective_sigma.
  set (good := invert (map (fun x => Reqb x 0) ivar)).
  assert (Hg : length good = length ivar)
    by (unfold good, invert; rewrite !length_map; reflexivity).
  unfold getmask at 1. rewrite Hg, Nat.eqb_refl. cbn [rbind].
  unfold getmask. rewrite Hg.
  destruct (Nat.eqb_spec (length scatters) (length ivar)) as [Es|Ns];
    [|reflexivity].
  cbn [rbind].
  rewrite broadcast_same_length
    by (rewrite !length_map, !length_select; congruence).
  cbn [rbind]. unfold setmask.
  replace (length (scalar_op Rmult (ones (length flux)) LARGE))
    with (length flux)
    by (unfold scalar_op, ones; rewrite length_map, repeat_length; reflexivity).
  rewrite Hg.
  destruct (Nat.eqb_spec (length flux) (length ivar)) as [Ef|Nf];
    [|reflexivity].
  destruct H as [H|H]; congruence.
Qed.

Lemma effective_sigma_length_mismatch_witness :
  (length [0; 1; 2] <> length [4; 0] \/ length [4; 0] <> length [1; 2])
  /\ effective_sigma [1; 2] [4; 0] [0; 1; 2] = Raised IndexError.
Proof.
  assert (H : length [0; 1; 2] <> length [4; 0]
              \/ length [4; 0] <> length [1; 2])
    by (left; discriminate).
  split; [exact H|].
  exact (effective_sigma_length_mismatch [1; 2] [4; 0] [0; 1; 2] H).
Defined.

Lemma sigma_pixel_pos (iv s : R) : 0 <= iv -> 0 < sigma_pixel iv s.
Proof.
  intros Hiv. unfold sigma_pixel, Reqb, LARGE.
  destruct (Req_dec_T iv 0) as [_|N]; [lra|].
  apply sqrt_lt_R0.
  assert (0 < 1 / iv) by (apply Rdiv_lt_0_compat; lra).
  assert (0 <= s ^ 2) by apply pow2_ge_0. lra.
Qed.

(** X4. When no inverse variance is negative, every effective standard
    deviation [effective_sigma] returns is strictly positive: the weights
    handed to the fit never divide by zero. *)
Theorem effective_sigma_positive (flux ivar scatters sig : vector) :
  effective_sigma flux ivar scatters = Returned sig ->
  (forall x, In x ivar -> 0 <= x) ->
  length sig = length flux /\ forall s, In s sig -> 0 < s.
Proof.
  intros E Hiv.
  destruct (Nat.eq_dec (length scatters) (length ivar)) as [Es|Ns];
    [|rewrite effective_sigma_length_mismatch in E by (left; exact Ns);
      discriminate].
  destruct (Nat.eq_dec (length ivar) (length flux)) as [Ei|Ni];
    [|rewrite effective_sigma_length_mismatch in E by (right; exact Ni);
      discriminate].
  rewrite effective_sigma_returned in E by congruence.
  inversion E; subst sig. clear E.
  split; [rewrite length_zip_with; congruence|].
  intros s Hs. apply (In_nth _ _ 0) in Hs. destruct Hs as (i & Hi & <-).
  rewrite length_zip_with in Hi by congruence.
  rewrite (nth_zip_with sigma_pixel ivar scatters 0 0 0) by (congruence || lia).
  apply sigma_pixel_pos. apply Hiv. apply nth_In. exact Hi.
Qed.

Lemma effective_sigma_positive_witness :
  effective_sigma [1; 2] [0; 4] [3; 0]
  = Returned (zip_with sigma_pixel [0; 4] [3; 0])
  /\ (forall x, In x [0; 4] -> 0 <= x)
  /\ forall s, In s (zip_with sigma_pixel [0; 4] [3; 0]) -> 0 < s.
Proof.
  assert (E : effective_sigma [1; 2] [0; 4] [3; 0]
              = Returned (zip_with sigma_pixel [0; 4] [3; 0]))
    by (apply effective_sigma_returned; reflexivity).
  assert (H : forall x, In x [0; 4] -> 0 <= x)
    by (intros x [<-|[<-|[]]]; lra).
  split; [exact E|]. split; [exact H|].
  exact (proj2 (effective_sigma_positive [1; 2] [0; 4] [3; 0] E H)).
Defined.

(** ** The chi-square recorded for a star *)







Section Recorded.

Variable curve_fit :
  forall (xdata : matrix) (ydata p0 sigma : vector), result (vector * matrix).
Variable model : Model.t.
Variable starting_guess : vector.




End Recorded.







(** ** Lines 82-109 and the dataset *)

Section DriverAndDataset.

Variable curve_fit :
  forall (xdata : matrix) (ydata p0 sigma : vector), result (vector * matrix).
Variable model : Model.t.
Variable starting_guess : vector.







End DriverAndDataset.







(** ** The methods of the [Dataset] class *)

Section DatasetMethods.

Import DatasetV12.

Lemma length_take {A} (a : list A) (mask : list bool) :
  length a = length mask -> length (take a mask) = count_true mask.
Proof.
  revert mask. induction a as [|x a IH]; intros [|b mask] H; simpl in *;
    try discriminate; [reflexivity|].
  unfold count_true in *. destruct b; simpl; rewrite IH; congruence.
Qed.

Lemma take_nil_mask {A} (a : list A) : take a [] = [].
Proof. destruct a; reflexivity. Qed.

Lemma take_both_nil {A} (a : list A) (m : list bool) : take a (both m []) = [].
Proof.
  revert a. induction m as [|b m IH]; intros [|x a]; try reflexivity.
  destruct b; simpl; apply IH.
Qed.

Lemma take_take {A} (a : list A) (m1 m2 : list bool) :
  take (take a m1) m2 = take a (both m1 m2).
Proof.
  revert a m2. induction m1 as [|b m1 IH]; intros a m2.
  - cbn [both]. rewrite !take_nil_mask. reflexivity.
  - destruct a as [|x a]; [reflexivity|]. destruct b; cbn [take both].
    + destruct m2 as [|c m2]; cbn [take].
      * symmetry. apply take_both_nil.
      * destruct c; rewrite IH; reflexivity.
    + apply IH.
Qed.

Lemma length_both (m1 m2 : list bool) : length (both m1 m2) = length m1.
Proof.
  revert m2. induction m1 as [|b m1 IH]; intros m2; [reflexivity|].
  destruct b; [destruct m2|]; simpl; rewrite IH; reflexivity.
Qed.

Lemma take_map {A B} (f : A -> B) (a : list A) (mask : list bool) :
  take (map f a) mask = map f (take a mask).
Proof.
  revert mask. induction a as [|x a IH]; intros [|b mask]; try reflexivity.
  simpl. destruct b; simpl; rewrite IH; reflexivity.
Qed.

Lemma masked_returned {A} (a : list A) (mask : list bool) (r : list A) :
  masked a mask = Returned r -> length a = length mask /\ r = take a mask.
Proof.
  unfold masked. destruct (Nat.eqb_spec (length a) (length mask)) as [E|N];
    intros H; inversion H. auto.
Qed.

Lemma masked_same_length {A} (a : list A) (mask : list bool) :
  length a = length mask -> masked a mask = Returned (take a mask).
Proof. intros H. unfold masked. rewrite H, Nat.eqb_refl. reflexivity. Qed.

(** What [choose_spectra] does, case by case. *)
Lemma choose_spectra_run (mask : list bool) (d : t) :
  choose_spectra mask d
  = if (length (IDs d) =? length mask)%nat then
      let d1 := mk (take (IDs d) mask) (SNRs d) (lambdas d) (spectra d)
                   (label_names d) (label_vals d) in
      if (length (spectra d) =? length mask)%nat then
        let d2 := mk (take (IDs d) mask) (SNRs d) (lambdas d)
                     (take (spectra d) mask) (label_names d) (label_vals d) in
        match label_vals d with
        | None => (Raised TypeError, d2)
        | Some lv =>
            if (length lv =? length mask)%nat
            then (Returned tt,
                  mk (take (IDs d) mask) (SNRs d) (lambdas d)
                     (take (spectra d) mask) (label_names d)
                     (Some (take lv mask)))
            else (Raised IndexError, d2)
        end
      else (Raised IndexError, d1)
    else (Raised IndexError, d).
Proof.
  unfold choose_spectra, bind, get, lift, masked, set_IDs, set_spectra,
    set_label_vals, subscript.
  destruct d as [ids snrs lam sp names lv]. cbn [IDs SNRs lambdas spectra
    label_names label_vals].
  destruct (length ids =? length mask)%nat; [|reflexivity].
  destruct (length sp =? length mask)%nat; [|reflexivity].
  destruct lv as [lv|]; [|reflexivity]. unfold masked.
  destruct (length lv =? length mask)%nat; reflexivity.
Qed.

(** X14. When the mask has one entry per star of [IDs], of [spectra] and
    of the label values, [choose_spectra] keeps in all three the stars
    where the mask is True, as many as the mask has True entries, and
    touches nothing else: in particular [SNRs] keeps its entries for the
    stars that were dropped. *)
Theorem choose_spectra_keeps_the_masked_stars (mask : list bool) (d : t)
    (lv : matrix) :
  label_vals d = Some lv ->
  length (IDs d) = length mask ->
  length (spectra d) = length mask ->
  length lv = length mask ->
  exists d',
    choose_spectra mask d = (Returned tt, d')
    /\ IDs d' = take (IDs d) mask
    /\ spectra d' = take (spectra d) mask
    /\ label_vals d' = Some (take lv mask)
    /\ length (IDs d') = count_true mask
    /\ length (spectra d') = count_true mask
    /\ length (take lv mask) = count_true mask
    /\ SNRs d' = SNRs d
    /\ lambdas d' = lambdas d
    /\ label_names d' = label_names d.
Proof.
  intros Hlv Hi Hs Hl. rewrite choose_spectra_run. cbv zeta.
  rewrite Hlv, Hi, Hs, Hl, !Nat.eqb_refl.
  eexists. split; [reflexivity|]. cbn [IDs spectra label_vals SNRs lambdas
    label_names].
  repeat split; apply length_take; assumption.
Qed.

(** X15. [choose_spectra] is not all-or-nothing.  On a dataset without
    label values (the default of the constructor) and a mask that fits
    [IDs] and [spectra], it raises TypeError, and [IDs] and [spectra] have
    already been reduced to the stars of the mask. *)
Theorem choose_spectra_without_labels_is_partial (mask : list bool) (d : t) :
  label_vals d = None ->
  length (IDs d) = length mask ->
  length (spectra d) = length mask ->
  exists d',
    choose_spectra mask d = (Raised TypeError, d')
    /\ IDs d' = take (IDs d) mask
    /\ spectra d' = take (spectra d) mask
    /\ label_vals d' = None.
Proof.
  intros Hlv Hi Hs. rewrite choose_spectra_run. cbv zeta.
  rewrite Hlv, Hi, Hs, !Nat.eqb_refl.
  eexists. split; [reflexivity|]. repeat split.
Qed.

Lemma choose_spectra_returned (mask : list bool) (d d' : t) :
  choose_spectra mask d = (Returned tt, d') ->
  exists lv,
    label_vals d = Some lv
    /\ length (IDs d) = length mask
    /\ length (spectra d) = length mask
    /\ length lv = length mask
    /\ d' = mk (take (IDs d) mask) (SNRs d) (lambdas d)
               (take (spectra d) mask) (label_names d) (Some (take lv mask)).
Proof.
  rewrite choose_spectra_run. cbv zeta.
  destruct (Nat.eqb_spec (length (IDs d)) (length mask)) as [Ei|];
    [|discriminate].
  destruct (Nat.eqb_spec (length (spectra d)) (length mask)) as [Es|];
    [|discriminate].
  destruct (label_vals d) as [lv|]; [|discriminate].
  destruct (Nat.eqb_spec (length lv) (length mask)) as [El|];
    [|discriminate].
  intros H. inversion H. exists lv. auto.
Qed.

(** X16. Two calls of [choose_spectra] that both return amount to one call
    with the mask that keeps, of the stars the first mask keeps, those the
    second mask keeps. *)
Theorem choose_spectra_twice (m1 m2 : list bool) (d d1 d2 : t) :
  choose_spectra m1 d = (Returned tt, d1) ->
  choose_spectra m2 d1 = (Returned tt, d2) ->
  choose_spectra (both m1 m2) d = (Returned tt, d2).
Proof.
  intros H1 H2.
  destruct (choose_spectra_returned _ _ H1) as (lv & Hlv & Hi & Hs & Hl & ->).
  destruct (choose_spectra_returned _ _ H2)
    as (lv' & Hlv' & _ & _ & _ & ->).
  cbn [IDs SNRs lambdas spectra label_names label_vals] in *.
  inversion Hlv'; subst lv'.
  rewrite choose_spectra_run. cbv zeta.
  rewrite Hlv, !length_both, Hi, Hs, Hl, !Nat.eqb_refl.
  rewrite !take_take. reflexivity.
Qed.

End DatasetMethods.

Section DatasetLabels.

Import DatasetV12.

Lemma choose_labels_run (cols : list Z) (d : t) :
  choose_labels cols d
  = match chosen cols d with
    | Returned (names, vals) =>
        (Returned tt,
         mk (IDs d) (SNRs d) (lambdas d) (spectra d) names (Some vals))
    | Raised e => (Raised e, d)
    end.
Proof.
  unfold choose_labels, chosen, bind, get, lift, set_label_names,
    set_label_vals.
  destruct (rmap _ cols) as [names|e]; [|reflexivity]. cbn [rbind].
  destruct (set_items _ cols true) as [cm|e]; [|reflexivity]. cbn [rbind].
  destruct (subscript _ _) as [vals|e]; reflexivity.
Qed.

Lemma position_raises (n : nat) (i : Z) (e : exn) :
  position n i = Raised e -> e = IndexError.
Proof.
  unfold position.
  destruct ((0 <=? i) && (i <? Z.of_nat n))%Z; [discriminate|].
  destruct ((- Z.of_nat n <=? i) && (i <? 0))%Z; [discriminate|].
  intros H. inversion H. reflexivity.
Qed.

Lemma position_lt (n : nat) (i : Z) (p : nat) :
  position n i = Returned p -> (p < n)%nat.
Proof.
  unfold position.
  destruct ((0 <=? i) && (i <? Z.of_nat n))%Z eqn:E1.
  - intros H. inversion H. apply andb_true_iff in E1. destruct E1 as [A B].
    apply Z.leb_le in A. apply Z.ltb_lt in B. lia.
  - destruct ((- Z.of_nat n <=? i) && (i <? 0))%Z eqn:E2; [|discriminate].
    intros H. inversion H. apply andb_true_iff in E2. destruct E2 as [A B].
    apply Z.leb_le in A. apply Z.ltb_lt in B. lia.
Qed.

Lemma position_of_nat (n p : nat) :
  (p < n)%nat -> position n (Z.of_nat p) = Returned p.
Proof.
  intros H. unfold position.
  replace ((0 <=? Z.of_nat p) && (Z.of_nat p <? Z.of_nat n))%Z with true.
  - rewrite Nat2Z.id. reflexivity.
  - symmetry. apply andb_true_iff. split;
      [apply Z.leb_le | apply Z.ltb_lt]; lia.
Qed.

Lemma rmap_raises {A B} (f : A -> result B) (l : list A) (e : exn)
    (P : exn -> Prop) :
  (forall x e', f x = Raised e' -> P e') -> rmap f l = Raised e -> P e.
Proof.
  intros Hf. induction l as [|x t IH]; simpl; [discriminate|].
  destruct (f x) as [y|e'] eqn:Ex; simpl.
  - destruct (rmap f t) as [ys|e'']; simpl; [discriminate|].
    intros H. inversion H; subst. apply IH. reflexivity.
  - intros H. inversion H; subst. eapply Hf. exact Ex.
Qed.

Lemma item_raises {A} (dflt : A) (l : list A) (i : Z) (e : exn) :
  item dflt l i = Raised e -> e = IndexError.
Proof.
  unfold item. destruct (position _ i) as [p|e3] eqn:E3; cbn [rbind];
    [discriminate|].
  intros H. inversion H; subst. eapply position_raises. exact E3.
Qed.

Lemma masked_raises {A} (a : list A) (mask : list bool) (e : exn) :
  masked a mask = Raised e -> e = IndexError.
Proof.
  unfold masked. destruct (length a =? length mask)%nat; [discriminate|].
  intros H. inversion H. reflexivity.
Qed.

(** X17. [choose_labels] is all-or-nothing: when it raises, which it does
    with IndexError (a column index out of range, or a label table whose
    rows do not have one entry per label name) or TypeError (no label
    values), the object is as it was before the call. *)
Theorem choose_labels_raises_before_it_writes (cols : list Z) (d d' : t)
    (e : exn) :
  choose_labels cols d = (Raised e, d') ->
  d' = d /\ (e = IndexError \/ e = TypeError).
Proof.
  rewrite choose_labels_run.
  destruct (chosen cols d) as [[names vals]|e'] eqn:Ec; [discriminate|].
  intros H. inversion H; subst. split; [reflexivity|].
  unfold chosen in Ec.
  destruct (rmap (item _ _) cols) as [names|e1] eqn:E1.
  2:{ cbn [rbind] in Ec. inversion Ec; subst. left.
      apply (@rmap_raises _ _ _ _ _ (fun x => x = IndexError)
               (fun x e' => @item_raises _ _ _ x e') E1). }
  cbn [rbind] in Ec.
  destruct (set_items _ cols true) as [cm|e2] eqn:E2.
  2:{ cbn [rbind] in Ec. inversion Ec; subst. left.
      unfold set_items in E2.
      destruct (rmap (position _) cols) as [ps|e3] eqn:E3;
        [discriminate|].
      cbn [rbind] in E2. inversion E2; subst.
      apply (@rmap_raises _ _ _ _ _ (fun x => x = IndexError)
               (fun x e' => @position_raises _ x e') E3). }
  cbn [rbind] in Ec.
  destruct (label_vals d') as [lv|]; cbn [subscript] in Ec.
  - destruct (columns lv cm) as [vals|e4] eqn:E4; [discriminate|].
    cbn [rbind] in Ec. inversion Ec; subst. left.
    apply (@rmap_raises _ _ _ _ _ (fun x => x = IndexError)
             (fun r e' => @masked_raises _ r cm e') E4).
  - cbn [rbind] in Ec. inversion Ec. right. reflexivity.
Qed.

Lemma filter_map_S (f : nat -> bool) (l : list nat) :
  filter f (map S l) = map S (filter (fun j => f (S j)) l).
Proof.
  induction l as [|x l IH]; simpl; [reflexivity|].
  destruct (f (S x)); simpl; rewrite IH; reflexivity.
Qed.

Lemma take_seq {A} (dflt : A) (r : list A) (mask : list bool) :
  length r = length mask ->
  take r mask
  = map (fun j => nth j r dflt)
        (filter (fun j => nth j mask false) (seq 0 (length r))).
Proof.
  revert mask. induction r as [|x r IH]; intros [|b mask] H;
    simpl in H; try discriminate; [reflexivity|].
  cbn [take length seq filter nth]. rewrite <- seq_shift, filter_map_S.
  rewrite (IH mask) by congruence.
  destruct b; cbn [map nth]; rewrite map_map; reflexivity.
Qed.

Lemma length_set_true (ps : list nat) (m0 : list bool) :
  length (fold_left (fun m p => update p true m) ps m0) = length m0.
Proof.
  revert m0. induction ps as [|p ps IH]; intros m0; simpl; [reflexivity|].
  rewrite IH. apply length_update.
Qed.

Lemma nth_set_true (ps : list nat) (m0 : list bool) (j : nat) :
  (forall p, In p ps -> (p < length m0)%nat) ->
  nth j (fold_left (fun m p => update p true m) ps m0) false
  = nth j m0 false || existsb (Nat.eqb j) ps.
Proof.
  revert m0. induction ps as [|p ps IH]; intros m0 H; simpl.
  - rewrite orb_false_r. reflexivity.
  - rewrite IH
      by (intros q Hq; rewrite length_update; apply H; right; exact Hq).
    destruct (Nat.eqb_spec j p) as [->|N].
    + rewrite nth_update_eq by (apply H; left; reflexivity).
      rewrite orb_true_r. reflexivity.
    + rewrite nth_update_neq by congruence. reflexivity.
Qed.

Lemma filter_increasing (n : nat) :
  forall a ps,
  increasing_from a ps ->
  (forall p, In p ps -> (p < a + n)%nat) ->
  filter (fun j => existsb (Nat.eqb j) ps) (seq a n) = ps.
Proof.
  induction n as [|n IH]; intros a ps Hinc Hlt.
  - destruct ps as [|p ps]; [reflexivity|].
    destruct Hinc as [Hp _]. specialize (Hlt p (or_introl eq_refl)). lia.
  - cbn [seq filter]. destruct ps as [|p ps].
    + cbn [existsb]. apply (IH (S a) []); [exact I | intros p []].
    + destruct Hinc as [Hp Hinc]. cbn [existsb].
      assert (Hge : forall q b, increasing_from b ps -> In q ps -> (b <= q)%nat).
      { clear. induction ps as [|x ps IHp]; intros q b Hb []; subst.
        - apply Hb.
        - destruct Hb as [Hx Hb]. specialize (IHp q (S x) Hb H). lia. }
      destruct (Nat.eqb_spec a p) as [->|N].
      * cbn [orb]. f_equal.
        rewrite (filter_ext_in _ (fun j => existsb (Nat.eqb j) ps)).
        -- apply IH; [exact Hinc|].
           intros q Hq. specialize (Hlt q (or_intror Hq)). lia.
        -- intros j Hj. apply in_seq in Hj.
           destruct (Nat.eqb_spec j p); [lia | reflexivity].
      * cbn [orb].
        assert (Hnot : existsb (Nat.eqb a) ps = false).
        { apply not_true_is_false. intros F. apply existsb_exists in F.
          destruct F as (q & Hq & Eq). apply Nat.eqb_eq in Eq. subst q.
          specialize (Hge a (S p) Hinc Hq). lia. }
        rewrite Hnot.
        apply (IH (S a) (p :: ps)).
        -- split; [lia | exact Hinc].
        -- intros q Hq. specialize (Hlt q Hq). lia.
Qed.

Lemma columns_same_length (lv : matrix) (cm : list bool) :
  (forall r, In r lv -> length r = length cm) ->
  columns lv cm = Returned (map (fun r => take r cm) lv).
Proof.
  intros H. unfold columns. apply rmap_total.
  intros r Hr. apply masked_same_length. apply H. exact Hr.
Qed.

Lemma columns_returned (lv vals : matrix) (cm : list bool) :
  columns lv cm = Returned vals ->
  (forall r, In r lv -> length r = length cm)
  /\ vals = map (fun r => take r cm) lv.
Proof.
  unfold columns. revert vals.
  induction lv as [|r lv IH]; simpl; intros vals H.
  - inversion H. split; [intros r []|reflexivity].
  - destruct (masked r cm) as [x|] eqn:Er; simpl in H; [|discriminate].
    destruct (rmap _ lv) as [xs|]; simpl in H; [|discriminate].
    inversion H; subst. destruct (IH xs eq_refl) as [Hl ->].
    apply masked_returned in Er. destruct Er as [El ->].
    split; [|reflexivity]. intros r' [<-|Hr']; auto.
Qed.

(** What [choose_labels] computes for column positions that are in range,
    on a label table with one column per name: the names in the order of
    [cols], the columns in the order of the table. *)
Lemma chosen_in_range (d : t) (lv : matrix) (ps : list nat) :
  label_vals d = Some lv ->
  (forall p, In p ps -> (p < length (label_names d))%nat) ->
  (forall r, In r lv -> length r = length (label_names d)) ->
  chosen (map Z.of_nat ps) d
  = Returned
      (map (fun p => nth p (label_names d) EmptyString) ps,
       map (fun r =>
              map (fun p => nth p r 0)
                  (filter (fun j => existsb (Nat.eqb j) ps)
                          (seq 0 (length (label_names d)))))
           lv).
Proof.
  intros Hlv Hps Hrows. unfold chosen.
  rewrite (rmap_total _ (fun i => nth (Z.to_nat i) (label_names d) EmptyString)).
  2:{ intros i Hi. apply in_map_iff in Hi. destruct Hi as (p & <- & Hp).
      unfold item. rewrite position_of_nat by (apply Hps; exact Hp).
      cbn [rbind]. rewrite Nat2Z.id. reflexivity. }
  cbn [rbind]. unfold set_items. rewrite repeat_length.
  rewrite (rmap_total _ Z.to_nat).
  2:{ intros i Hi. apply in_map_iff in Hi. destruct Hi as (p & <- & Hp).
      rewrite position_of_nat by (apply Hps; exact Hp).
      rewrite Nat2Z.id. reflexivity. }
  cbn [rbind]. rewrite Hlv. cbn [subscript].
  rewrite !map_map.
  rewrite (map_ext (fun x => Z.to_nat (Z.of_nat x)) (fun x => x))
    by apply Nat2Z.id.
  rewrite map_id.
  set (cm := fold_left (fun m p => update p true m) ps
               (repeat false (length (label_names d)))).
  assert (Hcm : length cm = length (label_names d))
    by (unfold cm; rewrite length_set_true, repeat_length; reflexivity).
  rewrite columns_same_length by (intros r Hr; rewrite Hcm; auto).
  cbn [rbind]. do 2 f_equal.
  - apply map_ext. intros p. rewrite Nat2Z.id. reflexivity.
  - apply map_ext_in. intros r Hr.
    rewrite (take_seq 0 r cm) by (rewrite Hcm; auto).
    rewrite (Hrows r Hr). f_equal. apply filter_ext_in.
    intros j Hj. apply in_seq in Hj. unfold cm.
    rewrite nth_set_true by (rewrite repeat_length; exact Hps).
    rewrite nth_repeat. reflexivity.
Qed.

(** X18. Called with column positions in strictly increasing order, on a
    label table with one column per label name, [choose_labels] keeps the
    names and the columns of these positions, name and column of one
    position at one place, and touches nothing else. *)
Theorem choose_labels_increasing_columns (d : t) (lv : matrix)
    (ps : list nat) :
  label_vals d = Some lv ->
  increasing_from 0 ps ->
  (forall p, In p ps -> (p < length (label_names d))%nat) ->
  (forall r, In r lv -> length r = length (label_names d)) ->
  exists d',
    choose_labels (map Z.of_nat ps) d = (Returned tt, d')
    /\ label_names d' = map (fun p => nth p (label_names d) EmptyString) ps
    /\ label_vals d' = Some (map (fun r => map (fun p => nth p r 0) ps) lv)
    /\ IDs d' = IDs d /\ SNRs d' = SNRs d /\ lambdas d' = lambdas d
    /\ spectra d' = spectra d.
Proof.
  intros Hlv Hinc Hps Hrows.
  rewrite choose_labels_run, (chosen_in_range _ _ Hlv Hps Hrows).
  rewrite (filter_increasing _ 0 ps Hinc) by (intros p Hp; simpl; auto).
  eexists. split; [reflexivity|]. repeat split.
Qed.

(** X19. The names follow the order of [cols], the columns the order of
    the table: called with two positions in decreasing order, [b] then [a]
    with [a < b], [choose_labels] puts the name of [b] first and the column
    of [a] first, so that each of the two names heads the other's
    column. *)
Theorem choose_labels_decreasing_pair (d : t) (lv : matrix) (a b : nat) :
  label_vals d = Some lv ->
  (a < b < length (label_names d))%nat ->
  (forall r, In r lv -> length r = length (label_names d)) ->
  exists d',
    choose_labels [Z.of_nat b; Z.of_nat a] d = (Returned tt, d')
    /\ label_names d' = [nth b (label_names d) EmptyString;
                         nth a (label_names d) EmptyString]
    /\ label_vals d' = Some (map (fun r => [nth a r 0; nth b r 0]) lv).
Proof.
  intros Hlv Hab Hrows.
  assert (Hps : forall p, In p [b; a] -> (p < length (label_names d))%nat)
    by (intros p [<-|[<-|[]]]; lia).
  rewrite choose_labels_run.
  change [Z.of_nat b; Z.of_nat a] with (map Z.of_nat [b; a]).
  rewrite (chosen_in_range _ _ Hlv Hps Hrows).
  rewrite (filter_ext (fun j => existsb (Nat.eqb j) [b; a])
                      (fun j => existsb (Nat.eqb j) [a; b]))
    by (intros j; simpl; rewrite !orb_false_r; apply orb_comm).
  rewrite (filter_increasing _ 0 [a; b])
    by (simpl; try (intros p [<-|[<-|[]]]); lia).
  eexists. split; [reflexivity|]. split; reflexivity.
Qed.

Lemma length_nodup_le (l : list nat) :
  (length (nodup Nat.eq_dec l) <= length l)%nat.
Proof.
  induction l as [|x l IH]; simpl; [lia|].
  destruct (in_dec Nat.eq_dec x l); simpl; lia.
Qed.

Lemma length_nodup_lt (l : list nat) :
  ~ NoDup l -> (length (nodup Nat.eq_dec l) < length l)%nat.
Proof.
  induction l as [|x l IH]; intros H.
  - destruct H. constructor.
  - simpl. pose proof (length_nodup_le l).
    destruct (in_dec Nat.eq_dec x l) as [Hin|Hnin]; simpl; [lia|].
    assert (~ NoDup l) by (intros F; apply H; constructor; assumption).
    specialize (IH H1). lia.
Qed.

Lemma count_true_positions (ps : list nat) (n : nat) :
  (forall p, In p ps -> (p < n)%nat) ->
  count_true (fold_left (fun m p => update p true m) ps (repeat false n))
  = length (nodup Nat.eq_dec ps).
Proof.
  intros Hps.
  set (cm := fold_left (fun m p => update p true m) ps (repeat false n)).
  assert (Hcm : length cm = n)
    by (unfold cm; rewrite length_set_true, repeat_length; reflexivity).
  rewrite <- (length_take cm cm eq_refl), (take_seq false cm cm eq_refl).
  rewrite length_map, Hcm.
  set (L := filter (fun j => nth j cm false) (seq 0 n)).
  assert (Hmem : forall j, In j L <-> In j ps).
  { intros j. unfold L. rewrite filter_In, in_seq. unfold cm.
    split.
    - intros [Hj Hn].
      rewrite nth_set_true in Hn by (rewrite repeat_length; exact Hps).
      rewrite nth_repeat in Hn. cbn [orb] in Hn.
      apply existsb_exists in Hn. destruct Hn as (q & Hq & Eq).
      apply Nat.eqb_eq in Eq. subst q. exact Hq.
    - intros Hj. split; [specialize (Hps j Hj); lia|].
      rewrite nth_set_true by (rewrite repeat_length; exact Hps).
      rewrite nth_repeat. cbn [orb]. apply existsb_exists.
      exists j. split; [exact Hj | apply Nat.eqb_refl]. }
  apply Nat.le_antisymm; apply NoDup_incl_length.
  - apply NoDup_filter, seq_NoDup.
  - intros j Hj. apply nodup_In, Hmem. exact Hj.
  - apply NoDup_nodup.
  - intros j Hj. apply Hmem. apply nodup_In in Hj. exact Hj.
Qed.

(** X20. Whenever [choose_labels] returns, the dataset has one label name
    per entry of [cols], and every row of its label table has one entry
    per distinct column position that [cols] denotes (a negative index
    counting from the end): never more entries than names, and fewer as
    soon as [cols] names a column twice. *)
Theorem choose_labels_counts_names_and_columns (cols : list Z) (d d' : t) :
  choose_labels cols d = (Returned tt, d') ->
  exists ps vals,
    rmap (position (length (label_names d))) cols = Returned ps
    /\ label_vals d' = Some vals
    /\ length (label_names d') = length cols
    /\ (forall r, In r vals -> length r = length (nodup Nat.eq_dec ps))
    /\ (length (nodup Nat.eq_dec ps) <= length cols)%nat
    /\ (~ NoDup ps -> (length (nodup Nat.eq_dec ps) < length cols)%nat).
Proof.
  rewrite choose_labels_run.
  destruct (chosen cols d) as [[names vals]|e] eqn:Ec; [|discriminate].
  intros H. inversion H; subst d'. clear H.
  unfold chosen in Ec.
  destruct (rmap (item _ _) cols) as [names'|] eqn:E1; [|discriminate].
  cbn [rbind] in Ec. unfold set_items in Ec. rewrite repeat_length in Ec.
  destruct (rmap (position _) cols) as [ps|] eqn:E2; [|discriminate].
  cbn [rbind] in Ec.
  destruct (label_vals d) as [lv|]; [|discriminate]. cbn [subscript] in Ec.
  destruct (columns lv _) as [vals'|] eqn:E3; [|discriminate].
  cbn [rbind] in Ec. inversion Ec; subst names' vals'. clear Ec.
  exists ps, vals. split; [reflexivity|]. split; [reflexivity|].
  cbn [label_names].
  assert (Hlen : length ps = length cols)
    by (apply (rmap_returned_length _ _ E2)).
  assert (Hps : forall p, In p ps -> (p < length (label_names d))%nat).
  { intros p Hp. apply (In_nth _ _ 0%nat) in Hp.
    destruct Hp as (k & Hk & <-).
    apply (position_lt (length (label_names d)) (nth k cols 0%Z)).
    apply (rmap_returned_nth _ _ 0%Z 0%nat E2). lia. }
  split; [apply (rmap_returned_length _ _ E1)|].
  apply columns_returned in E3. destruct E3 as [Hrows ->].
  split.
  - intros r Hr. apply in_map_iff in Hr. destruct Hr as (r0 & <- & Hr0).
    rewrite length_take by (apply Hrows; exact Hr0).
    apply count_true_positions. exact Hps.
  - rewrite <- Hlen. split; [apply length_nodup_le | apply length_nodup_lt].
Qed.

Lemma take_incl {A} (a : list A) (mask : list bool) (x : A) :
  In x (take a mask) -> In x a.
Proof.
  revert mask. induction a as [|y a IH]; intros [|b mask] H;
    simpl in H; try contradiction.
  destruct b; [destruct H as [<-|H]|]; simpl; eauto.
Qed.

(** X21. Choosing labels and choosing spectra can be done in either order:
    when [choose_labels] followed by [choose_spectra] returns, so does
    [choose_spectra] followed by [choose_labels], and it leaves the same
    dataset. *)
Theorem choose_labels_and_spectra_commute (cols : list Z) (mask : list bool)
    (d d1 d2 : t) :
  choose_labels cols d = (Returned tt, d1) ->
  choose_spectra mask d1 = (Returned tt, d2) ->
  exists d1',
    choose_spectra mask d = (Returned tt, d1')
    /\ choose_labels cols d1' = (Returned tt, d2).
Proof.
  intros H1 H2. rewrite choose_labels_run in H1.
  destruct (chosen cols d) as [[names vals]|e] eqn:Ec; [|discriminate].
  inversion H1; subst d1. clear H1.
  destruct (choose_spectra_returned _ _ H2) as (lv' & Hlv' & Hi & Hs & Hl & ->).
  cbn [IDs SNRs lambdas spectra label_names label_vals] in *.
  inversion Hlv'; subst lv'. clear Hlv' H2.
  unfold chosen in Ec.
  destruct (rmap (item _ _) cols) as [names'|] eqn:E1; [|discriminate].
  cbn [rbind] in Ec.
  destruct (set_items _ cols true) as [cm|] eqn:E2; [|discriminate].
  cbn [rbind] in Ec.
  destruct (label_vals d) as [lv|] eqn:Elv; [|discriminate].
  cbn [subscript] in Ec.
  destruct (columns lv cm) as [vals'|] eqn:E3; [|discriminate].
  cbn [rbind] in Ec. inversion Ec; subst names' vals'. clear Ec.
  apply columns_returned in E3. destruct E3 as [Hrows ->].
  rewrite length_map in Hl.
  eexists. split.
  - rewrite choose_spectra_run. cbv zeta.
    rewrite Elv, Hi, Hs, Hl, !Nat.eqb_refl. reflexivity.
  - rewrite choose_labels_run. unfold chosen.
    cbn [IDs SNRs lambdas spectra label_names label_vals].
    rewrite E1. cbn [rbind]. rewrite E2. cbn [rbind subscript].
    rewrite columns_same_length
      by (intros r Hr; apply Hrows; eapply take_incl; exact Hr).
    cbn [rbind]. rewrite take_map. reflexivity.
Qed.

End DatasetLabels.

Lemma choose_spectra_keeps_the_masked_stars_witness :
  exists d',
    DatasetV12.choose_spectra [true; false; true] Cases.catalog
    = (Returned tt, d')
    /\ DatasetV12.IDs d' = ["s1"; "s3"]%string
    /\ DatasetV12.label_vals d' = Some [[1; 2; 3]; [7; 8; 9]]
    /\ DatasetV12.SNRs d' = [10; 20; 30].
Proof.
  destruct (@choose_spectra_keeps_the_masked_stars [true; false; true]
              Cases.catalog [[1; 2; 3]; [4; 5; 6]; [7; 8; 9]]
              eq_refl eq_refl eq_refl eq_refl)
    as (d' & E & Hi & _ & Hl & _ & _ & _ & Hs & _).
  exists d'. split; [exact E|]. split; [exact Hi|].
  split; [exact Hl | exact Hs].
Defined.

Lemma choose_spectra_without_labels_is_partial_witness :
  exists d',
    DatasetV12.choose_spectra [true; false; true] Cases.unlabeled
    = (Raised TypeError, d')
    /\ DatasetV12.IDs d' = ["s1"; "s3"]%string
    /\ DatasetV12.spectra d' = [[[1; 0]; [2; 0]]; [[5; 0]; [6; 0]]]
    /\ DatasetV12.label_vals d' = None.
Proof.
  exact (@choose_spectra_without_labels_is_partial [true; false; true]
           Cases.unlabeled eq_refl eq_refl eq_refl).
Defined.

Lemma choose_spectra_twice_witness :
  exists d1 d2,
    DatasetV12.choose_spectra [true; false; true] Cases.catalog
    = (Returned tt, d1)
    /\ DatasetV12.choose_spectra [false; true] d1 = (Returned tt, d2)
    /\ DatasetV12.choose_spectra [false; false; true] Cases.catalog
       = (Returned tt, d2).
Proof.
  eexists _, _. split; [reflexivity|]. split; [reflexivity|].
  apply (@choose_spectra_twice [true; false; true] [false; true]
           Cases.catalog _ _ eq_refl eq_refl).
Defined.

Lemma choose_labels_raises_before_it_writes_witness :
  DatasetV12.choose_labels [5%Z] Cases.catalog
  = (Raised IndexError, Cases.catalog)
  /\ Cases.catalog = Cases.catalog
  /\ (IndexError = IndexError \/ IndexError = TypeError).
Proof.
  split; [reflexivity|].
  exact (@choose_labels_raises_before_it_writes [5%Z] Cases.catalog
           Cases.catalog IndexError eq_refl).
Defined.

Lemma choose_labels_increasing_columns_witness :
  exists d',
    DatasetV12.choose_labels [0%Z; 2%Z] Cases.catalog = (Returned tt, d')
    /\ DatasetV12.label_names d' = ["teff"; "feh"]%string
    /\ DatasetV12.label_vals d' = Some [[1; 3]; [4; 6]; [7; 9]].
Proof.
  destruct (@choose_labels_increasing_columns Cases.catalog
              [[1; 2; 3]; [4; 5; 6]; [7; 8; 9]] [0; 2]%nat eq_refl)
    as (d' & E & Hn & Hv & _).
  - simpl. lia.
  - intros p [<-|[<-|[]]]; simpl; lia.
  - intros r [<-|[<-|[<-|[]]]]; reflexivity.
  - exists d'. split; [exact E|]. split; [exact Hn | exact Hv].
Defined.

Lemma choose_labels_decreasing_pair_witness :
  exists d',
    DatasetV12.choose_labels [2%Z; 0%Z] Cases.catalog = (Returned tt, d')
    /\ DatasetV12.label_names d' = ["feh"; "teff"]%string
    /\ DatasetV12.label_vals d' = Some [[1; 3]; [4; 6]; [7; 9]].
Proof.
  apply (@choose_labels_decreasing_pair Cases.catalog
           [[1; 2; 3]; [4; 5; 6]; [7; 8; 9]] 0 2 eq_refl).
  - simpl. lia.
  - intros r [<-|[<-|[<-|[]]]]; reflexivity.
Defined.

Lemma choose_labels_counts_names_and_columns_witness :
  exists d' vals,
    DatasetV12.choose_labels [0%Z; (-3)%Z] Cases.catalog = (Returned tt, d')
    /\ DatasetV12.label_vals d' = Some vals
    /\ length (DatasetV12.label_names d') = 2%nat
    /\ (forall r, In r vals -> length r = 1%nat).
Proof.
  assert (E : DatasetV12.choose_labels [0%Z; (-3)%Z] Cases.catalog
              = (Returned tt,
                 DatasetV12.mk ["s1"; "s2"; "s3"]%string [10; 20; 30] [1; 2]
                   [[[1; 0]; [2; 0]]; [[3; 0]; [4; 0]]; [[5; 0]; [6; 0]]]
                   ["teff"; "teff"]%string (Some [[1]; [4]; [7]])))
    by reflexivity.
  destruct (choose_labels_counts_names_and_columns _ _ E)
    as (ps & vals & Eps & Hv & Hn & Hr & _).
  eexists _, vals. split; [exact E|]. split; [exact Hv|].
  split; [exact Hn|]. inversion Eps; subst ps. exact Hr.
Defined.

Lemma choose_labels_and_spectra_commute_witness :
  let d1 :=
    DatasetV12.mk ["s1"; "s2"; "s3"]%string [10; 20; 30] [1; 2]
      [[[1; 0]; [2; 0]]; [[3; 0]; [4; 0]]; [[5; 0]; [6; 0]]]
      ["teff"; "feh"]%string (Some [[1; 3]; [4; 6]; [7; 9]]) in
  let d2 :=
    DatasetV12.mk ["s1"; "s3"]%string [10; 20; 30] [1; 2]
      [[[1; 0]; [2; 0]]; [[5; 0]; [6; 0]]]
      ["teff"; "feh"]%string (Some [[1; 3]; [7; 9]]) in
  DatasetV12.choose_labels [0%Z; 2%Z] Cases.catalog = (Returned tt, d1)
  /\ DatasetV12.choose_spectra [true; false; true] d1 = (Returned tt, d2)
  /\ exists d1',
       DatasetV12.choose_spectra [true; false; true] Cases.catalog
       = (Returned tt, d1')
       /\ DatasetV12.choose_labels [0%Z; 2%Z] d1' = (Returned tt, d2).
Proof.
  intros d1 d2.
  assert (E1 : DatasetV12.choose_labels [0%Z; 2%Z] Cases.catalog
               = (Returned tt, d1)) by reflexivity.
  assert (E2 : DatasetV12.choose_spectra [true; false; true] d1
               = (Returned tt, d2)) by reflexivity.
  split; [exact E1|]. split; [exact E2|].
  exact (choose_labels_and_spectra_commute _ _ _ E1 E2).
Defined.
